(** * userUtils: deterministic identity mapping and profile resolution

    A shallow embedding of [src/utils/userUtils.ts] (both revisions present in
    the repository) and the properties of its identity mapper, its format
    validator and its profile resolver. *)

From Stdlib Require Import ZArith List String Ascii Bool Lia.
Import ListNotations.
Open Scope Z_scope.

(* ================================================================== *)
(** * JavaScript values and primitives used by the module *)
(* ================================================================== *)

Module Js.

(** A JavaScript string is a sequence of UTF-16 code units; [charCodeAt]
    returns the unit at an index as a number in [0, 65535]. *)
Definition jsstring := list Z.

Definition code_unit (c : Z) : Prop := 0 <= c < 65536.

(** String literals of the source are ASCII. *)
Definition str (s : string) : jsstring :=
  map (fun a => Z.of_nat (nat_of_ascii a)) (list_ascii_of_string s).

Fixpoint jsstring_eqb (a b : jsstring) : bool :=
  match a, b with
  | [], [] => true
  | x :: a', y :: b' => (x =? y) && jsstring_eqb a' b'
  | _, _ => false
  end.

(** Exceptions the modelled code can meet. *)
Inductive exn : Type :=
| RangeError
| TypeError
| FetchError.

(** Completion of a synchronous computation: a value, or a thrown exception. *)
Inductive result (A : Type) : Type :=
| Ok (a : A)
| Err (e : exn).
Arguments Ok {A} a.
Arguments Err {A} e.

Definition rbind {A B} (r : result A) (k : A -> result B) : result B :=
  match r with
  | Ok a => k a
  | Err e => Err e
  end.

(** [ToInt32]: reduction of an integral number to the signed 32-bit range. *)
Definition to_int32 (x : Z) : Z := (x + 2 ^ 31) mod 2 ^ 32 - 2 ^ 31.

(** [a << n]: both operands converted, the count masked to five bits. *)
Definition shl (a n : Z) : Z :=
  to_int32 (Z.shiftl (to_int32 a) (Z.land n 31)).

(** [a & b] on the 32-bit two's complement representations. *)
Definition band (a b : Z) : Z :=
  to_int32 (Z.land (to_int32 a) (to_int32 b)).

(** Digit characters of [Number.prototype.toString]: 0-9 then a-z. *)
Definition digit_char (d : Z) : Z :=
  if d <? 10 then 48 + d else 87 + d.

(** Digits of a non-negative integer, most significant first. *)
Fixpoint digits (fuel : nat) (radix n : Z) (acc : jsstring) : jsstring :=
  match fuel with
  | O => acc
  | S fuel' =>
      let acc' := digit_char (n mod radix) :: acc in
      if n / radix =? 0 then acc' else digits fuel' radix (n / radix) acc'
  end.

(** One more than the binary logarithm bounds the number of digits in
    every radix from 2 on. *)
Definition digits_fuel (n : Z) : nat := S (Z.to_nat (Z.log2 n)).

(** [Number.prototype.toString(radix)] on an integer: a [RangeError] unless
    2 <= radix <= 36. *)
Definition Number_toString (n radix : Z) : result jsstring :=
  if (radix <? 2) || (36 <? radix) then Err RangeError
  else if n <? 0 then Ok (45 :: digits (digits_fuel (- n)) radix (- n) [])
  else Ok (digits (digits_fuel n) radix n []).

(** The first [n] units of the pad string repeated without end;
    [cur] is what is left of the current repetition. *)
Fixpoint fill (n : nat) (pad cur : jsstring) : jsstring :=
  match n with
  | O => []
  | S n' =>
      match cur with
      | c :: cur' => c :: fill n' pad cur'
      | [] =>
          match pad with
          | c :: pad' => c :: fill n' pad pad'
          | [] => []
          end
      end
  end.

(** [String.prototype.padStart(targetLength, padString)]. *)
Definition padStart (s : jsstring) (targetLength : nat) (padString : jsstring)
  : jsstring :=
  if (targetLength <=? List.length s)%nat then s
  else match padString with
       | [] => s
       | _ => fill (targetLength - List.length s) padString padString ++ s
       end.

(** [String.prototype.padEnd(targetLength, padString)]. *)
Definition padEnd (s : jsstring) (targetLength : nat) (padString : jsstring)
  : jsstring :=
  if (targetLength <=? List.length s)%nat then s
  else match padString with
       | [] => s
       | _ => s ++ fill (targetLength - List.length s) padString padString
       end.

(** [String.prototype.slice(start, end)] for the non-negative literal
    indices the source uses; both ends are clamped to the length. *)
Definition slice (s : jsstring) (start end_ : nat) : jsstring :=
  firstn (end_ - start) (skipn start s).

(** ** The fragment of regular expressions used by the validator:
    an anchored sequence of counted character classes, with the [i] flag. *)
Inductive node : Type :=
| CharClass (ranges : list (Z * Z))
| Char (c : Z).

Record regex : Type := {
  atoms : list (node * nat);
  ignoreCase : bool
}.

Definition in_range (lo hi c : Z) : bool := (lo <=? c) && (c <=? hi).

Definition ascii_upper (c : Z) : Z := if in_range 97 122 c then c - 32 else c.
Definition ascii_lower (c : Z) : Z := if in_range 65 90 c then c + 32 else c.

(** Under [i] two units match when their canonical forms agree.  Without the
    [u] flag a unit outside ASCII never canonicalises into ASCII, so for the
    ASCII classes of the validator only the two cases of a letter agree. *)
Definition unit_matches (i : bool) (lo hi c : Z) : bool :=
  in_range lo hi c
  || (i && (in_range lo hi (ascii_upper c) || in_range lo hi (ascii_lower c))).

Definition node_matches (i : bool) (n : node) (c : Z) : bool :=
  match n with
  | CharClass ranges => existsb (fun r => unit_matches i (fst r) (snd r) c) ranges
  | Char d => unit_matches i d d c
  end.

Fixpoint expand (p : list (node * nat)) : list node :=
  match p with
  | [] => []
  | (n, k) :: p' => repeat n k ++ expand p'
  end.

Fixpoint match_nodes (i : bool) (p : list node) (s : jsstring) : bool :=
  match p, s with
  | [], [] => true
  | n :: p', c :: s' => node_matches i n c && match_nodes i p' s'
  | _, _ => false
  end.

(** [RegExp.prototype.test] for an anchored pattern. *)
Definition test (r : regex) (s : jsstring) : bool :=
  match_nodes (ignoreCase r) (expand (atoms r)) s.

End Js.

Import Js.

Notation "x <- r ;; k" := (rbind r (fun x => k))
  (at level 61, r at next level, right associativity).

(* ================================================================== *)
(** * The identity mapper and the format validator *)
(* ================================================================== *)

Module UserUtils.

Definition NAMESPACE_UUID : jsstring := str "1b671a64-40d5-491e-99b0-da01ff1f3341".

(** Body of the accumulator loop:
    [hash = ((hash << 5) - hash) + char; hash = hash & hash]. *)
Definition hash_step (hash char : Z) : Z :=
  let hash := (shl hash 5 - hash) + char in
  band hash hash.

(** [for (let i = 0; i < input.length; i++)] over [input.charCodeAt(i)]. *)
Fixpoint hash_loop (input : jsstring) (hash : Z) : Z :=
  match input with
  | [] => hash
  | char :: rest => hash_loop rest (hash_step hash char)
  end.

(** The template literal of the return statement. *)
Definition uuid_template (hex : jsstring) : jsstring :=
  slice hex 0 8 ++ str "-" ++ slice hex 0 4 ++ str "-4" ++ slice hex 1 4
  ++ str "-a" ++ slice hex 0 3 ++ str "-" ++ padEnd (slice hex 0 12) 12 (str "0").

(** The [try] block of [generateConsistentUUID]. *)
Definition generateConsistentUUID_try (userId : jsstring) : result jsstring :=
  let hash := 0 in
  let input := userId ++ NAMESPACE_UUID in
  let hash := hash_loop input hash in
  digits <- Number_toString (Z.abs hash) 16 ;;
  let hex := padStart digits 8 (str "0") in
  Ok (uuid_template hex).

(** [generateConsistentUUID]; [randomUUID] is the completion that
    [crypto.randomUUID()] would have in the [catch] handler. *)
Definition generateConsistentUUID (randomUUID : result jsstring)
  (userId : jsstring) : result jsstring :=
  match generateConsistentUUID_try userId with
  | Ok uuid => Ok uuid
  | Err _ => randomUUID
  end.

(** [/^[0-9a-f]{8}-[0-9a-f]{4}-[1-5][0-9a-f]{3}-[89ab][0-9a-f]{3}-[0-9a-f]{12}$/i] *)
Definition hexClass : node := CharClass [(48, 57); (97, 102)].
Definition dash : node := Char 45.

Definition uuidRegex : regex :=
  {| atoms := [ (hexClass, 8%nat); (dash, 1%nat);
                (hexClass, 4%nat); (dash, 1%nat);
                (CharClass [(49, 53)], 1%nat); (hexClass, 3%nat); (dash, 1%nat);
                (CharClass [(56, 56); (57, 57); (97, 97); (98, 98)], 1%nat);
                (hexClass, 3%nat); (dash, 1%nat);
                (hexClass, 12%nat) ];
     ignoreCase := true |}.

Definition validateUUID (uuid : jsstring) : bool := test uuidRegex uuid.

End UserUtils.

(** The identifier the [try] block of the mapper gives for an external id
    (the [supabaseUserId] of the resolver). *)
Definition mapped (userId : jsstring) : jsstring :=
  match UserUtils.generateConsistentUUID_try userId with
  | Ok uuid => uuid
  | Err _ => []
  end.

(* ================================================================== *)
(** * The hosted backend client, as the resolver sees it *)
(* ================================================================== *)

Module Supabase.

(** The four requests the resolver builds on the shared client. *)
Inductive query : Type :=
| SelectIdById (id : jsstring)
    (** [from('profiles').select('id').eq('id', id).maybeSingle()] *)
| SelectIdByEmail (email : jsstring)
    (** [from('profiles').select('id').eq('email', email).maybeSingle()] *)
| Rpc_get_or_create_user_profile
    (clerk_user_id full_name user_email user_role : jsstring)
    (** [rpc('get_or_create_user_profile', {...})] *)
| InsertProfile (id full_name email role auth_provider : jsstring)
    (** [from('profiles').insert({...}).select('id').single()] *).

Inductive PostgrestError : Type :=
| PgError (code : jsstring).

(** The object a request resolves with.  For the row requests [data] is the
    [id] field of the returned row ([null] when there is none); for the
    remote procedure it is the returned scalar. *)
Record response : Type := {
  data : option jsstring;
  error : option PostgrestError
}.

(** How an awaited request settles.  A request that throws while it is
    built, or resolves with something that cannot be destructured, ends the
    enclosing [try] block the way a rejected one does. *)
Inductive settled : Type :=
| Fulfilled (r : response)
| Rejected (e : exn).

(** Asynchronous code over the client: it returns, throws, or awaits a
    request and goes on with the way it settled. *)
Inductive prog (A : Type) : Type :=
| Return (a : A)
| Throw (e : exn)
| Await (q : query) (k : settled -> prog A).
Arguments Return {A} a.
Arguments Throw {A} e.
Arguments Await {A} q k.

Fixpoint bind {A B} (p : prog A) (f : A -> prog B) : prog B :=
  match p with
  | Return a => f a
  | Throw e => Throw e
  | Await q k => Await q (fun s => bind (k s) f)
  end.

(** [try { p } catch (error) { handler }] *)
Fixpoint try_catch {A} (p : prog A) (handler : exn -> prog A) : prog A :=
  match p with
  | Return a => Return a
  | Throw e => handler e
  | Await q k => Await q (fun s => try_catch (k s) handler)
  end.

(** [await q]: a rejected promise is thrown at the [await]. *)
Definition await (q : query) : prog response :=
  Await q (fun s =>
    match s with
    | Fulfilled r => Return r
    | Rejected e => Throw e
    end).

Definition lift {A} (r : result A) : prog A :=
  match r with
  | Ok a => Return a
  | Err e => Throw e
  end.

(** Truthiness of a string: only the empty string is falsy. *)
Definition truthy (s : jsstring) : bool :=
  match s with
  | [] => false
  | _ => true
  end.

(** One request and the way it settled. *)
Definition event : Type := query * settled.

Section Run.
Context {St : Type}.
(** The client: every request settles somehow and may change the backend. *)
Variable client : query -> St -> settled * St.

(** Running a program: its completion, the final backend state and the
    requests it made, in order. *)
Fixpoint run {A} (p : prog A) (st : St) : result A * St * list event :=
  match p with
  | Return a => (Ok a, st, [])
  | Throw e => (Err e, st, [])
  | Await q k =>
      let '(s, st1) := client q st in
      let '(r, st2, tr) := run (k s) st1 in
      (r, st2, (q, s) :: tr)
  end.
End Run.

Definition completion {A St} (x : result A * St * list event) : result A :=
  fst (fst x).
Definition final {A St} (x : result A * St * list event) : St :=
  snd (fst x).
Definition requests {A St} (x : result A * St * list event) : list query :=
  map fst (snd x).

(** The ids that fulfilled requests carried back. *)
Fixpoint supplied_ids (tr : list event) : list jsstring :=
  match tr with
  | [] => []
  | (_, Fulfilled {| data := Some v |}) :: tr' => v :: supplied_ids tr'
  | _ :: tr' => supplied_ids tr'
  end.

Definition is_creation (q : query) : bool :=
  match q with
  | Rpc_get_or_create_user_profile _ _ _ _ => true
  | InsertProfile _ _ _ _ _ => true
  | _ => false
  end.

End Supabase.

Import Supabase.

Notation "x <~ p ;; k" := (bind p (fun x => k))
  (at level 61, p at next level, right associativity).

(** How a [try] block that may [return] from the enclosing function ends. *)
Inductive flow : Type :=
| Returned (v : jsstring)
| Normal.

(* ================================================================== *)
(** * The profile resolver, revision with remote procedure and insert *)
(* ================================================================== *)

Module Resolver.
Import UserUtils.

(** The first [try] block: lookup by primary key, then by email. *)
Definition lookup_existing (supabaseUserId userEmail : jsstring) : prog flow :=
  try_catch
    (r <~ await (SelectIdById supabaseUserId) ;;
     match data r with
     | Some existingProfile_id => Return (Returned existingProfile_id)
     | None =>
         r <~ await (SelectIdByEmail userEmail) ;;
         match data r with
         | Some emailProfile_id => Return (Returned emailProfile_id)
         | None => Return Normal
         end
     end)
    (fun _ => Return Normal).

(** The inner [try] block: direct insert after a failed remote procedure. *)
Definition direct_insert (supabaseUserId fullName userEmail userRole : jsstring)
  : prog jsstring :=
  try_catch
    (r <~ await (InsertProfile supabaseUserId fullName userEmail userRole
                               (str "clerk")) ;;
     match error r with
     | Some _ => Return supabaseUserId
     | None =>
         match data r with
         | Some insertData_id => Return insertData_id
         | None => Throw TypeError
         end
     end)
    (fun _ => Return supabaseUserId).

(** The second [try] block. *)
Definition create_profile
  (supabaseUserId clerkUserId fullName userEmail userRole : jsstring)
  : prog jsstring :=
  try_catch
    (r <~ await (Rpc_get_or_create_user_profile
                   clerkUserId fullName userEmail userRole) ;;
     match error r with
     | Some _ => direct_insert supabaseUserId fullName userEmail userRole
     | None =>
         match data r with
         | Some profileId =>
             if truthy profileId then Return profileId
             else Return supabaseUserId
         | None => Return supabaseUserId
         end
     end)
    (fun _ => Return supabaseUserId).

Definition default_role (userRole : option jsstring) : jsstring :=
  match userRole with
  | Some r => r
  | None => str "student"
  end.

Definition getOrCreateUserProfile (randomUUID : result jsstring)
  (clerkUserId fullName userEmail : jsstring) (userRole : option jsstring)
  : prog jsstring :=
  let userRole := default_role userRole in
  supabaseUserId <~ lift (generateConsistentUUID randomUUID clerkUserId) ;;
  found <~ lookup_existing supabaseUserId userEmail ;;
  match found with
  | Returned v => Return v
  | Normal =>
      create_profile supabaseUserId clerkUserId fullName userEmail userRole
  end.

End Resolver.

(* ================================================================== *)
(** * The profile resolver, revision that skips creation *)
(* ================================================================== *)

(** The second copy of the file has the same mapper, validator and lookups;
    only the end of [getOrCreateUserProfile] differs. *)
Module Workaround.
Import UserUtils.

Definition getOrCreateUserProfile (randomUUID : result jsstring)
  (clerkUserId fullName userEmail : jsstring) (userRole : option jsstring)
  : prog jsstring :=
  let userRole := Resolver.default_role userRole in
  supabaseUserId <~ lift (generateConsistentUUID randomUUID clerkUserId) ;;
  found <~ Resolver.lookup_existing supabaseUserId userEmail ;;
  match found with
  | Returned v => Return v
  | Normal => Return supabaseUserId
  end.

End Workaround.

(* ================================================================== *)
(** * An in-memory profile table behind the client *)
(* ================================================================== *)

Module MemStore.
Import UserUtils.

Record ProfileRecord : Type := {
  id : jsstring;
  full_name : jsstring;
  email : jsstring;
  role : jsstring;
  auth_provider : jsstring
}.

Definition table : Type := list ProfileRecord.

Definition by_id (k : jsstring) (r : ProfileRecord) : bool := jsstring_eqb (id r) k.
Definition by_email (e : jsstring) (r : ProfileRecord) : bool := jsstring_eqb (email r) e.

(** [maybeSingle()]: no row gives [null], one row gives the row, more rows
    give an error and no data. *)
Definition maybeSingle (rows : list ProfileRecord) : response :=
  match rows with
  | [] => {| data := None; error := None |}
  | [r] => {| data := Some (id r); error := None |}
  | _ => {| data := None; error := Some (PgError (str "PGRST116")) |}
  end.

(** Insert under the primary-key constraint, returning the new row's id. *)
Definition insert (row : ProfileRecord) (t : table) : settled * table :=
  if existsb (by_id (id row)) t
  then (Fulfilled {| data := None; error := Some (PgError (str "23505")) |}, t)
  else (Fulfilled {| data := Some (id row); error := None |}, t ++ [row]).

(** The database function is not part of the client code; two behaviours
    are provided. *)
Inductive rpc_mode : Type :=
| RpcBroken
| RpcGetOrCreate.

(** Modelled from the spec: the database function
    [get_or_create_user_profile] is missing from the sources.  The spec
    describes a record-creation procedure keyed by the mapped id that
    returns the id of the record; [RpcBroken] is the function failing, as
    the comments of the source report it. *)
Definition rpc (mode : rpc_mode)
  (clerk_user_id full_name user_email user_role : jsstring) (t : table)
  : settled * table :=
  match mode with
  | RpcBroken =>
      (Fulfilled {| data := None; error := Some (PgError (str "PGRST202")) |}, t)
  | RpcGetOrCreate =>
      let k := mapped clerk_user_id in
      if existsb (by_id k) t
      then (Fulfilled {| data := Some k; error := None |}, t)
      else (Fulfilled {| data := Some k; error := None |},
            t ++ [ {| id := k; full_name := full_name; email := user_email;
                      role := user_role; auth_provider := str "clerk" |} ])
  end.

Definition client (mode : rpc_mode) (q : query) (t : table) : settled * table :=
  match q with
  | SelectIdById k => (Fulfilled (maybeSingle (filter (by_id k) t)), t)
  | SelectIdByEmail e => (Fulfilled (maybeSingle (filter (by_email e) t)), t)
  | Rpc_get_or_create_user_profile c f e r => rpc mode c f e r t
  | InsertProfile i f e r a =>
      insert {| id := i; full_name := f; email := e; role := r;
                auth_provider := a |} t
  end.

(** Number of records stored under a primary key. *)
Definition count_id (k : jsstring) (t : table) : nat :=
  List.length (filter (by_id k) t).

End MemStore.

(** A backend that cannot be reached: every request fails and nothing
    changes. *)
Definition failed (s : settled) : Prop :=
  match s with
  | Rejected _ => True
  | Fulfilled r => data r = None /\ error r <> None
  end.

Definition unreachable {St} (client : query -> St -> settled * St) : Prop :=
  forall q st, failed (fst (client q st)) /\ snd (client q st) = st.

Definition offline (q : query) (st : unit) : settled * unit :=
  (Rejected FetchError, st).

Definition erroring (q : query) (st : unit) : settled * unit :=
  (Fulfilled {| data := None; error := Some (PgError (str "503")) |}, st).


(* ================================================================== *)
(** * Hooks: asynchronous code that also writes component state *)
(* ================================================================== *)

Module Async.

(** The object a request resolves with, [{ data, error }]. *)
Record response (D : Type) : Type := {
  data : option D;
  error : option PostgrestError
}.
Arguments data {D} r.
Arguments error {D} r.
Arguments Build_response {D} data error.

(** How an awaited promise settles. *)
Inductive settled (X : Type) : Type :=
| Fulfilled (x : X)
| Rejected (e : exn).
Arguments Fulfilled {X} x.
Arguments Rejected {X} e.

Section Prog.
(** Awaited requests, indexed by what they resolve with. *)
Variable Q : Type -> Type.
(** Calls that cannot fail (the clock, a plain delay). *)
Variable C : Type -> Type.
(** What the code writes: component state, pending timers. *)
Variable S : Type.

Inductive prog (A : Type) : Type :=
| Done (a : A)
| Raise (e : exn)
| Request (X : Type) (q : Q X) (k : settled X -> prog A)
| Call (X : Type) (c : C X) (k : X -> prog A)
| Modify (f : S -> S) (k : prog A).
Arguments Done {A} a.
Arguments Raise {A} e.
Arguments Request {A} X q k.
Arguments Call {A} X c k.
Arguments Modify {A} f k.

Fixpoint bind {A B} (p : prog A) (f : A -> prog B) : prog B :=
  match p with
  | Done a => f a
  | Raise e => Raise e
  | Request X q k => Request X q (fun s => bind (k s) f)
  | Call X c k => Call X c (fun x => bind (k x) f)
  | Modify g k => Modify g (bind k f)
  end.

(** [try { p } catch (error) { handler }] *)
Fixpoint try_catch {A} (p : prog A) (handler : exn -> prog A) : prog A :=
  match p with
  | Done a => Done a
  | Raise e => handler e
  | Request X q k => Request X q (fun s => try_catch (k s) handler)
  | Call X c k => Call X c (fun x => try_catch (k x) handler)
  | Modify g k => Modify g (try_catch k handler)
  end.

(** [try { p } finally { f }]: [f] runs however [p] ends. *)
Fixpoint try_finally {A} (p : prog A) (f : prog unit) : prog A :=
  match p with
  | Done a => bind f (fun _ => Done a)
  | Raise e => bind f (fun _ => Raise e)
  | Request X q k => Request X q (fun s => try_finally (k s) f)
  | Call X c k => Call X c (fun x => try_finally (k x) f)
  | Modify g k => Modify g (try_finally k f)
  end.

(** [await q]: a rejected promise is thrown at the [await]. *)
Definition await {X} (q : Q X) : prog X :=
  Request X q (fun s =>
    match s with
    | Fulfilled x => Done x
    | Rejected e => Raise e
    end).

Definition call {X} (c : C X) : prog X := Call X c (fun x => Done x).

Definition modify (f : S -> S) : prog unit := Modify f (Done tt).

(** What the code asked of the outside, in order. *)
Inductive item : Type :=
| Asked (X : Type) (q : Q X)
| Called (X : Type) (c : C X).

Section Run.
(** The world outside the component and how it answers. *)
Variable W : Type.
Variable backend : forall X, Q X -> W -> settled X * W.
Variable env : forall X, C X -> W -> X * W.

(** Running a program: its completion, the world and the written state
    afterwards, and what was asked. *)
Fixpoint run {A} (p : prog A) (w : W) (s : S)
  : result A * W * S * list item :=
  match p with
  | Done a => (Ok a, w, s, [])
  | Raise e => (Err e, w, s, [])
  | Request X q k =>
      let '(r, w1) := backend X q w in
      let '(o, w2, s2, tr) := run (k r) w1 s in
      (o, w2, s2, Asked X q :: tr)
  | Call X c k =>
      let '(x, w1) := env X c w in
      let '(o, w2, s2, tr) := run (k x) w1 s in
      (o, w2, s2, Called X c :: tr)
  | Modify f k => run k w (f s)
  end.
End Run.

End Prog.

Arguments Done {Q C S A} a.
Arguments Raise {Q C S A} e.
Arguments Request {Q C S A} X q k.
Arguments Call {Q C S A} X c k.
Arguments Modify {Q C S A} f k.
Arguments bind {Q C S A B} p f.
Arguments try_catch {Q C S A} p handler.
Arguments try_finally {Q C S A} p f.
Arguments await {Q C S X} q.
Arguments call {Q C S X} c.
Arguments modify {Q C S} f.
Arguments Asked {Q C} X q.
Arguments Called {Q C} X c.
Arguments run {Q C S W} backend env {A} p w s.

Definition completion {A W S I} (x : result A * W * S * list I) : result A :=
  fst (fst (fst x)).
Definition world {A W S I} (x : result A * W * S * list I) : W :=
  snd (fst (fst x)).
Definition written {A W S I} (x : result A * W * S * list I) : S :=
  snd (fst x).
Definition asked {A W S I} (x : result A * W * S * list I) : list I :=
  snd x.

End Async.

Notation "x <<- p ;; k" := (Async.bind p (fun x => k))
  (at level 61, p at next level, right associativity).
Notation "p ;;; k" := (Async.bind p (fun _ => k))
  (at level 61, right associativity).

(** Numbers are double-precision floats.  [round_to_double x] is the double
    nearest to the integer [x], ties going to the even significand; integers
    up to 2^53 in magnitude are doubles already. *)
Definition round_to_double (x : Z) : Z :=
  let m := Z.abs x in
  if m <? 2 ^ 53 then x
  else
    let e := Z.log2 m - 52 in
    let q := m / 2 ^ e in
    let r := m mod 2 ^ e in
    let half := 2 ^ (e - 1) in
    let q' := if r <? half then q
              else if half <? r then q + 1
              else if Z.even q then q else q + 1 in
    Z.sgn x * (q' * 2 ^ e).

(** [a + b] on numbers that hold integers: the exact sum, rounded once. *)
Definition add_number (a b : Z) : Z := round_to_double (a + b).

(** [!s] is false for a string that is present and not empty. *)
Definition usable (s : option jsstring) : option jsstring :=
  match s with
  | Some v => if truthy v then Some v else None
  | None => None
  end.

(* ================================================================== *)
(** * useSubscription *)
(* ================================================================== *)

Module SubscriptionHook.
Import Async.

Record Subscription : Type := {
  id : jsstring;
  user_id : jsstring;
  plan_type : jsstring;
  status : jsstring;
  current_period_start : jsstring;
  current_period_end : jsstring;
  created_at : jsstring;
  updated_at : jsstring
}.

(** The two requests of [fetchSubscription]; both resolve with an array of
    at most one row, the newest first. *)
Inductive query : Type -> Type :=
| SelectActive (user_id : jsstring) : query (response (list Subscription))
    (** [.eq('user_id', id).eq('status', 'active').order(...).limit(1)] *)
| SelectLatest (user_id : jsstring) : query (response (list Subscription))
    (** [.eq('user_id', id).order(...).limit(1)] *).

(** The hook makes no call that cannot fail. *)
Inductive nocall : Type -> Type := .

(** What a timer will run. *)
Inductive task : Type :=
| FetchSubscription (supabaseUserId : jsstring) (retryCount : Z).

(** Component state and the timers set with [setTimeout] (task, delay). *)
Record state : Type := {
  subscription : option Subscription;
  loading : bool;
  timers : list (task * Z)
}.

Definition prog : Type -> Type := Async.prog query nocall state.

Definition setSubscription (v : option Subscription) : prog unit :=
  modify (fun s => {| subscription := v; loading := loading s;
                      timers := timers s |}).

Definition setLoading (b : bool) : prog unit :=
  modify (fun s => {| subscription := subscription s; loading := b;
                      timers := timers s |}).

Definition setTimeout (t : task) (ms : Z) : prog unit :=
  modify (fun s => {| subscription := subscription s; loading := loading s;
                      timers := timers s ++ [(t, ms)] |}).

(** [!data || data.length === 0] *)
Definition no_rows (data : option (list Subscription)) : bool :=
  match data with
  | Some (_ :: _) => false
  | _ => true
  end.

Definition fetchSubscription (supabaseUserId : jsstring) (retryCount : option Z)
  : prog unit :=
  let retryCount := match retryCount with Some n => n | None => 0 end in
  try_catch
    (r <<- await (SelectActive supabaseUserId) ;;
     let data := data r in
     let error := error r in
     (if no_rows data && (retryCount =? 0)
      then (_ <<- await (SelectLatest supabaseUserId) ;; Done tt)
      else Done tt) ;;;
     match error with
     | Some _ => setSubscription None ;;; setLoading false
     | None =>
         match data with
         | Some (sub :: _) => setSubscription (Some sub) ;;; setLoading false
         | _ =>
             setSubscription None ;;; setLoading false ;;;
             if retryCount =? 0
             then setTimeout (FetchSubscription supabaseUserId 1) 2000
             else Done tt
         end
     end)
    (fun _ => setSubscription None ;;; setLoading false).

(** What a timer task does when it fires. *)
Definition fire (t : task) : prog unit :=
  match t with
  | FetchSubscription supabaseUserId retryCount =>
      fetchSubscription supabaseUserId (Some retryCount)
  end.

(** The realtime payload: the event type and the new row. *)
Record payload : Type := {
  eventType : jsstring;
  new : Subscription
}.

(** The callback registered on the realtime channel.  The fetch it starts
    is not awaited; it is modelled as running next. *)
Definition on_change (supabaseUserId : jsstring) (p : payload) : prog unit :=
  if jsstring_eqb (eventType p) (str "INSERT")
     || jsstring_eqb (eventType p) (str "UPDATE")
  then
    let newSub := new p in
    if jsstring_eqb (status newSub) (str "active")
    then setSubscription (Some newSub) ;;; setLoading false
    else fetchSubscription supabaseUserId None
  else if jsstring_eqb (eventType p) (str "DELETE")
  then fetchSubscription supabaseUserId None
  else Done tt.

Definition refetch (getSupabaseUserId : option jsstring) : prog unit :=
  match usable getSupabaseUserId with
  | Some supabaseUserId =>
      setLoading true ;;; fetchSubscription supabaseUserId None
  | None => Done tt
  end.

Section Plans.
(** [new Date(s).getTime()]: the time value of a date string, [None] for an
    invalid date.  [now] is the time value of [new Date()]. *)
Variable Date_parse : jsstring -> option Z.

(** [new Date(s) > new Date()]; a comparison with an invalid date is false. *)
Definition later_than_now (s : jsstring) (now : Z) : bool :=
  match Date_parse s with
  | Some t => now <? t
  | None => false
  end.

Definition hasActivePlan (subscription : option Subscription) (now : Z)
  (planType : jsstring) : bool :=
  match subscription with
  | None => false
  | Some subscription =>
      let isActive := jsstring_eqb (status subscription) (str "active") in
      let isNotExpired := later_than_now (current_period_end subscription) now in
      isActive && isNotExpired && jsstring_eqb (plan_type subscription) planType
  end.

Definition hasAnyActivePlan (subscription : option Subscription) (now : Z)
  : bool :=
  match subscription with
  | None => false
  | Some subscription =>
      let isActive := jsstring_eqb (status subscription) (str "active") in
      let isNotExpired := later_than_now (current_period_end subscription) now in
      isActive && isNotExpired
  end.

Definition hasProPlan (subscription : option Subscription) (now : Z) : bool :=
  match subscription with
  | None => false
  | Some subscription =>
      let isActive := jsstring_eqb (status subscription) (str "active") in
      let isNotExpired := later_than_now (current_period_end subscription) now in
      let isProPlan :=
        jsstring_eqb (plan_type subscription) (str "pro")
        || jsstring_eqb (plan_type subscription) (str "enterprise") in
      isActive && isNotExpired && isProPlan
  end.
End Plans.

End SubscriptionHook.

(* ================================================================== *)
(** * useInterviewUsage *)
(* ================================================================== *)

Module InterviewUsageHook.
Import Async.

(** [usage_count] is a number that holds an integer. *)
Record InterviewUsage : Type := {
  id : jsstring;
  user_id : jsstring;
  free_interview_used : bool;
  usage_count : Z;
  last_interview_date : option jsstring;
  created_at : jsstring;
  updated_at : jsstring
}.

Inductive query : Type -> Type :=
| SelectProfileId (id : jsstring) : query (response jsstring)
    (** [from('profiles').select('id').eq('id', id).maybeSingle()];
        the data is the [id] of the row *)
| SelectUsage (user_id : jsstring) : query (response InterviewUsage)
    (** [from('user_interview_usage').select('*').eq('user_id', id).single()] *)
| InsertUsage (user_id : jsstring) (free_interview_used : bool)
    (usage_count : Z) : query (response InterviewUsage)
    (** [.insert({...}).select().single()] *)
| UpdateUsage (user_id : jsstring) (free_interview_used : bool)
    (usage_count : Z) (last_interview_date : jsstring)
  : query (response InterviewUsage)
    (** [.update({...}).eq('user_id', id).select().single()] *).

Inductive syscall : Type -> Type :=
| Sleep (ms : Z) : syscall unit
    (** [await new Promise(resolve => setTimeout(resolve, ms))] *)
| NowISO : syscall jsstring
    (** [new Date().toISOString()] *).

Record state : Type := {
  usage : option InterviewUsage;
  loading : bool
}.

Definition prog : Type -> Type := Async.prog query syscall state.

Definition setUsage (v : option InterviewUsage) : prog unit :=
  modify (fun s => {| usage := v; loading := loading s |}).

Definition setLoading (b : bool) : prog unit :=
  modify (fun s => {| usage := usage s; loading := b |}).

Definition ensureProfileExists (supabaseUserId : jsstring) : prog bool :=
  try_catch
    (r <<- await (SelectProfileId supabaseUserId) ;;
     match data r with
     | Some _ => Done true
     | None =>
         call (Sleep 1000) ;;;
         r <<- await (SelectProfileId supabaseUserId) ;;
         match data r with
         | Some _ => Done true
         | None => Done false
         end
     end)
    (fun _ => Done false).

Definition error_code (e : PostgrestError) : jsstring :=
  match e with
  | PgError code => code
  end.

Definition fetchUsage (isAuthenticated : bool)
  (getSupabaseUserId : option jsstring) : prog unit :=
  match (if isAuthenticated then usable getSupabaseUserId else None) with
  | None => setUsage None ;;; setLoading false
  | Some supabaseUserId =>
      try_finally
        (try_catch
           (profileExists <<- ensureProfileExists supabaseUserId ;;
            if negb profileExists then setLoading false
            else
              r <<- await (SelectUsage supabaseUserId) ;;
              match error r with
              | Some e =>
                  if jsstring_eqb (error_code e) (str "PGRST116")
                  then
                    r <<- await (InsertUsage supabaseUserId false 0) ;;
                    match error r with
                    | Some _ => Done tt
                    | None => setUsage (data r)
                    end
                  else Done tt
              | None => setUsage (data r)
              end)
           (fun _ => Done tt))
        (setLoading false)
  end.

(** [usage] is the component state the function closed over. *)
Definition markFreeInterviewUsed (getSupabaseUserId : option jsstring)
  (usage : option InterviewUsage) : prog unit :=
  match usable getSupabaseUserId, usage with
  | Some supabaseUserId, Some usage =>
      try_catch
        (now <<- call NowISO ;;
         r <<- await (UpdateUsage supabaseUserId true
                        (add_number (usage_count usage) 1) now) ;;
         match error r with
         | Some _ => Done tt
         | None => setUsage (data r)
         end)
        (fun _ => Done tt)
  | _, _ => Done tt
  end.

(** [usage && !usage.free_interview_used]: [null] without a usage record. *)
Definition canUseFreeInterview (usage : option InterviewUsage) : option bool :=
  match usage with
  | None => None
  | Some usage => Some (negb (free_interview_used usage))
  end.

End InterviewUsageHook.

(* ================================================================== *)
(** * Reference definitions and test data *)
(* ================================================================== *)

Import UserUtils.

Definition no_random : result jsstring := Err TypeError.

(** Lowercase hexadecimal digits. *)
Definition lower_hex (c : Z) : bool := in_range 48 57 c || in_range 97 102 c.

(** The eight characters the template is built from. *)
Definition hex8 (userId : jsstring) : jsstring :=
  let n := Z.abs (hash_loop (userId ++ NAMESPACE_UUID) 0) in
  padStart (digits (digits_fuel n) 16 n []) 8 (str "0").

(** An external identity and its attributes. *)
Definition alice : jsstring := str "user-123".
Definition alice_name : jsstring := str "Alice".
Definition alice_email : jsstring := str "alice@example.com".

(** A well-formed version-7 identifier, and a table holding a record under
    it that was created through another path. *)
Definition uuid_v7 : jsstring := str "018f4e2a-7b3c-7def-8abc-0123456789ab".

Definition legacy_table : MemStore.table :=
  [ {| MemStore.id := uuid_v7; MemStore.full_name := alice_name;
       MemStore.email := alice_email; MemStore.role := str "student";
       MemStore.auth_provider := str "clerk" |} ].

(** A table in which two records created through other paths share the
    email. *)
Definition twin_table : MemStore.table :=
  [ {| MemStore.id := uuid_v7; MemStore.full_name := alice_name;
       MemStore.email := alice_email; MemStore.role := str "student";
       MemStore.auth_provider := str "clerk" |};
    {| MemStore.id := str "6ba7b811-9dad-41d1-80b4-00c04fd430c8";
       MemStore.full_name := alice_name;
       MemStore.email := alice_email; MemStore.role := str "student";
       MemStore.auth_provider := str "google" |} ].

(** A backend with no stored profile whose database function derives the
    primary key in its own way. *)
Definition uuid_v5 : jsstring := str "6ba7b811-9dad-51d1-80b4-00c04fd430c8".

Definition minting (q : query) (st : unit) : settled * unit :=
  match q with
  | Rpc_get_or_create_user_profile _ _ _ _ =>
      (Fulfilled {| data := Some uuid_v5; error := None |}, st)
  | _ => (Fulfilled {| data := None; error := None |}, st)
  end.

(** Whether a creation request is keyed by [k]. *)
Definition creation_keyed_by (k : jsstring) (q : query) : bool :=
  match q with
  | Rpc_get_or_create_user_profile c _ _ _ => jsstring_eqb c k
  | InsertProfile i _ _ _ _ => jsstring_eqb i k
  | _ => false
  end.

(** What the two lookups find in a table. *)
Definition table_lookup (k e : jsstring) (t : MemStore.table) : flow :=
  match data (MemStore.maybeSingle (filter (MemStore.by_id k) t)) with
  | Some v => Returned v
  | None =>
      match data (MemStore.maybeSingle (filter (MemStore.by_email e) t)) with
      | Some v => Returned v
      | None => Normal
      end
  end.

(** Reading a digit string back. *)
Definition digit_value (c : Z) : Z := if c <? 58 then c - 48 else c - 87.

Definition parse_digits (radix : Z) (s : jsstring) (acc : Z) : Z :=
  fold_left (fun a c => a * radix + digit_value c) s acc.

(** The unbounded polynomial in 31 (Horner form) that the loop wraps. *)
Fixpoint poly31 (input : jsstring) (acc : Z) : Z :=
  match input with
  | [] => acc
  | c :: rest => poly31 rest (acc * 31 + c)
  end.

(** Hexadecimal digits in either case. *)
Definition is_hex (c : Z) : bool :=
  in_range 48 57 c || in_range 97 102 c || in_range 65 70 c.

(** What the format asks of the character at each position: dashes at 8,
    13, 18 and 23, the version digit at 14, the variant digit at 19, a
    hexadecimal digit elsewhere. *)
Definition position_ok (i : nat) (c : Z) : bool :=
  match i with
  | 8%nat | 13%nat | 18%nat | 23%nat => c =? 45
  | 14%nat => in_range 49 53 c
  | 19%nat => in_range 56 57 c || in_range 97 98 c || in_range 65 66 c
  | _ => is_hex c
  end.

Fixpoint positions_ok (i : nat) (u : jsstring) : bool :=
  match u with
  | [] => true
  | c :: u' => position_ok i c && positions_ok (S i) u'
  end.

(** A table that already holds the record of the external identity. *)
Definition alice_table : MemStore.table :=
  [ {| MemStore.id := mapped alice; MemStore.full_name := alice_name;
       MemStore.email := alice_email; MemStore.role := str "student";
       MemStore.auth_provider := str "clerk" |} ].

(** A backend whose lookups by primary key are rejected, although a lookup
    by email would find a record. *)
Definition flaky (q : query) (st : unit) : settled * unit :=
  match q with
  | SelectIdByEmail _ =>
      (Fulfilled {| data := Some uuid_v7; error := None |}, st)
  | _ => (Rejected FetchError, st)
  end.

(** A subscription row, a clock reading and a parser for the tests: the
    period of [pro_row] ends at time 1000. *)
Definition pro_row : SubscriptionHook.Subscription :=
  {| SubscriptionHook.id := str "sub-1";
     SubscriptionHook.user_id := mapped alice;
     SubscriptionHook.plan_type := str "pro";
     SubscriptionHook.status := str "active";
     SubscriptionHook.current_period_start := str "2025-01-01T00:00:00Z";
     SubscriptionHook.current_period_end := str "2025-02-01T00:00:00Z";
     SubscriptionHook.created_at := str "2025-01-01T00:00:00Z";
     SubscriptionHook.updated_at := str "2025-01-01T00:00:00Z" |}.

Definition parse_1000 (s : jsstring) : option Z :=
  if jsstring_eqb s (str "2025-02-01T00:00:00Z") then Some 1000 else None.

(** A backend holding no subscription, and one holding [pro_row]. *)
Definition no_subscription (X : Type) (q : SubscriptionHook.query X) (w : unit)
  : Async.settled X * unit :=
  match q with
  | SubscriptionHook.SelectActive _ =>
      (Async.Fulfilled {| Async.data := Some []; Async.error := None |}, w)
  | SubscriptionHook.SelectLatest _ =>
      (Async.Fulfilled {| Async.data := Some []; Async.error := None |}, w)
  end.

Definition no_calls (X : Type) (c : SubscriptionHook.nocall X) (w : unit)
  : X * unit :=
  match c with end.

Definition blank : SubscriptionHook.state :=
  {| SubscriptionHook.subscription := None;
     SubscriptionHook.loading := true;
     SubscriptionHook.timers := [] |}.

(** A usage row and a backend for the usage hook that knows the profile,
    has no usage row yet, and stores what it is asked to store. *)
Definition usage_row (user_id : jsstring) (used : bool) (count : Z)
  (date : option jsstring) : InterviewUsageHook.InterviewUsage :=
  {| InterviewUsageHook.id := str "usage-1";
     InterviewUsageHook.user_id := user_id;
     InterviewUsageHook.free_interview_used := used;
     InterviewUsageHook.usage_count := count;
     InterviewUsageHook.last_interview_date := date;
     InterviewUsageHook.created_at := str "2025-01-01T00:00:00Z";
     InterviewUsageHook.updated_at := str "2025-01-01T00:00:00Z" |}.

Definition fresh_user (X : Type) (q : InterviewUsageHook.query X) (w : unit)
  : Async.settled X * unit :=
  match q with
  | InterviewUsageHook.SelectProfileId id =>
      (Async.Fulfilled {| Async.data := Some id; Async.error := None |}, w)
  | InterviewUsageHook.SelectUsage _ =>
      (Async.Fulfilled {| Async.data := None;
                          Async.error := Some (PgError (str "PGRST116")) |}, w)
  | InterviewUsageHook.InsertUsage u used count =>
      (Async.Fulfilled {| Async.data := Some (usage_row u used count None);
                          Async.error := None |}, w)
  | InterviewUsageHook.UpdateUsage u used count date =>
      (Async.Fulfilled {| Async.data := Some (usage_row u used count (Some date));
                          Async.error := None |}, w)
  end.

Definition clock (X : Type) (c : InterviewUsageHook.syscall X) (w : unit)
  : X * unit :=
  match c with
  | InterviewUsageHook.Sleep _ => (tt, w)
  | InterviewUsageHook.NowISO => (str "2025-01-15T12:00:00.000Z", w)
  end.

Definition idle : InterviewUsageHook.state :=
  {| InterviewUsageHook.usage := None; InterviewUsageHook.loading := true |}.

(* ================================================================== *)
(** * The accumulator loop *)
(* ================================================================== *)

Section Int32.

Lemma to_int32_range (x : Z) : - 2 ^ 31 <= to_int32 x < 2 ^ 31.
Proof.
  unfold to_int32.
  pose proof (Z.mod_pos_bound (x + 2 ^ 31) (2 ^ 32) ltac:(lia)). lia.
Qed.

Lemma to_int32_small (x : Z) : - 2 ^ 31 <= x < 2 ^ 31 -> to_int32 x = x.
Proof.
  intros H. unfold to_int32. rewrite Z.mod_small; lia.
Qed.

Lemma to_int32_idem (x : Z) : to_int32 (to_int32 x) = to_int32 x.
Proof. apply to_int32_small, to_int32_range. Qed.

(** [ToInt32] only moves a number by a multiple of 2^32. *)
Lemma to_int32_shift (x : Z) : exists k, to_int32 x = x + k * 2 ^ 32.
Proof.
  exists (- ((x + 2 ^ 31) / 2 ^ 32)). unfold to_int32.
  rewrite Z.mod_eq by lia. lia.
Qed.

Lemma to_int32_add_mul (x k : Z) : to_int32 (x + k * 2 ^ 32) = to_int32 x.
Proof.
  unfold to_int32.
  replace (x + k * 2 ^ 32 + 2 ^ 31) with (x + 2 ^ 31 + k * 2 ^ 32) by lia.
  now rewrite Z.mod_add by lia.
Qed.

Lemma band_diag (x : Z) : band x x = to_int32 x.
Proof.
  unfold band. rewrite Z.land_diag. apply to_int32_idem.
Qed.

Lemma shl_5 (x : Z) : shl x 5 = to_int32 (to_int32 x * 32).
Proof.
  unfold shl. change (Z.land 5 31) with 5.
  now rewrite Z.shiftl_mul_pow2 by lia.
Qed.

End Int32.

Lemma hash_step_spec (h c : Z) : hash_step h c = to_int32 (h * 31 + c).
Proof.
  unfold hash_step. rewrite band_diag, shl_5.
  destruct (to_int32_shift h) as [k Hk].
  destruct (to_int32_shift (to_int32 h * 32)) as [j Hj].
  rewrite Hj, Hk.
  replace ((h + k * 2 ^ 32) * 32 + j * 2 ^ 32 - h + c)
    with (h * 31 + c + (32 * k + j) * 2 ^ 32) by lia.
  apply to_int32_add_mul.
Qed.

(** The numbers of the loop body are integers below 2^53 in magnitude, so
    the double-precision arithmetic of the source is exact on them. *)
Lemma hash_step_exact (h c : Z) :
  - 2 ^ 31 <= h < 2 ^ 31 -> code_unit c ->
  Z.abs (shl h 5) < 2 ^ 53 /\ Z.abs (shl h 5 - h) < 2 ^ 53
  /\ Z.abs (shl h 5 - h + c) < 2 ^ 53.
Proof.
  intros Hh Hc. unfold code_unit in Hc.
  pose proof (to_int32_range (Z.shiftl (to_int32 h) (Z.land 5 31))) as Hs.
  fold (shl h 5) in Hs.
  change (2 ^ 31) with 2147483648 in *.
  change (2 ^ 53) with 9007199254740992. lia.
Qed.

Lemma hash_step_range (h c : Z) : - 2 ^ 31 <= hash_step h c < 2 ^ 31.
Proof. rewrite hash_step_spec. apply to_int32_range. Qed.

Lemma hash_loop_app (s t : jsstring) (h : Z) :
  hash_loop (s ++ t) h = hash_loop t (hash_loop s h).
Proof.
  revert h. induction s as [|c s IH]; intros h; simpl; [reflexivity|apply IH].
Qed.

Lemma hash_loop_range (s : jsstring) (h : Z) :
  - 2 ^ 31 <= h < 2 ^ 31 -> - 2 ^ 31 <= hash_loop s h < 2 ^ 31.
Proof.
  revert h. induction s as [|c s IH]; intros h Hh; simpl; [exact Hh|].
  apply IH, hash_step_range.
Qed.

Lemma poly31_shift (s : jsstring) (a k : Z) :
  exists j, poly31 s (a + k * 2 ^ 32) = poly31 s a + j * 2 ^ 32.
Proof.
  revert a k. induction s as [|c s IH]; intros a k; cbn [poly31].
  - now exists k.
  - replace ((a + k * 2 ^ 32) * 31 + c) with (a * 31 + c + (31 * k) * 2 ^ 32) by lia.
    apply IH.
Qed.

Lemma hash_loop_poly31 (s : jsstring) (h : Z) :
  - 2 ^ 31 <= h < 2 ^ 31 -> hash_loop s h = to_int32 (poly31 s h).
Proof.
  revert h. induction s as [|c s IH]; intros h Hh; cbn [poly31 hash_loop].
  - now rewrite to_int32_small.
  - rewrite IH by apply hash_step_range.
    rewrite hash_step_spec.
    destruct (to_int32_shift (h * 31 + c)) as [k Hk]. rewrite Hk.
    destruct (poly31_shift s (h * 31 + c) k) as [j Hj]. rewrite Hj.
    apply to_int32_add_mul.
Qed.

(** C8. The accumulator loop is the polynomial rolling hash with multiplier
    31: one pass of the body, [((hash << 5) - hash) + char] followed by
    [hash & hash], turns the previous value [h] into [h * 31 + c] reduced to
    the signed 32-bit range, and so for every string the value after one more
    character is the previous value times 31 plus the character, reduced;
    the whole loop is the Horner polynomial reduced once. *)
Theorem hash_loop_rolling_31 (s : jsstring) (h c : Z) :
  hash_step h c = to_int32 (h * 31 + c)
  /\ hash_loop (s ++ [c]) 0 = to_int32 (hash_loop s 0 * 31 + c)
  /\ hash_loop s 0 = to_int32 (poly31 s 0).
Proof.
  split; [apply hash_step_spec|]. split.
  - rewrite hash_loop_app. simpl. apply hash_step_spec.
  - apply hash_loop_poly31. lia.
Qed.

(* ================================================================== *)
(** * The mapper always builds a well-formed identifier *)
(* ================================================================== *)

Lemma digit_char_hex (d : Z) : 0 <= d < 16 -> lower_hex (digit_char d) = true.
Proof.
  intros H. unfold lower_hex, digit_char, in_range.
  destruct (d <? 10) eqn:E; [apply Z.ltb_lt in E|apply Z.ltb_ge in E].
  - apply orb_true_iff; left. apply andb_true_iff; split; apply Z.leb_le; lia.
  - apply orb_true_iff; right. apply andb_true_iff; split; apply Z.leb_le; lia.
Qed.

Lemma digits_hex (fuel : nat) (n : Z) (acc : jsstring) :
  Forall (fun c => lower_hex c = true) acc ->
  Forall (fun c => lower_hex c = true) (digits fuel 16 n acc).
Proof.
  revert n acc. induction fuel as [|fuel IH]; intros n acc Hacc; simpl; [exact Hacc|].
  assert (Forall (fun c => lower_hex c = true) (digit_char (n mod 16) :: acc)) as H.
  { constructor; [|exact Hacc]. apply digit_char_hex, Z.mod_pos_bound. lia. }
  destruct (n / 16 =? 0); [exact H|now apply IH].
Qed.

Lemma digits_length (fuel : nat) (n : Z) (acc : jsstring) (k : nat) :
  0 <= n < 16 ^ Z.of_nat (S k) ->
  (List.length (digits fuel 16 n acc) <= List.length acc + S k)%nat.
Proof.
  revert n acc k. induction fuel as [|fuel IH]; intros n acc k Hn; simpl; [lia|].
  destruct (n / 16 =? 0) eqn:E; [simpl; lia|].
  apply Z.eqb_neq in E.
  destruct k as [|k].
  - exfalso. apply E. apply Z.div_small. change (16 ^ Z.of_nat 1) with 16 in Hn. lia.
  - assert (0 <= n / 16 < 16 ^ Z.of_nat (S k)) as Hq.
    { split; [apply Z.div_pos; lia|].
      apply Z.div_lt_upper_bound; [lia|].
      replace (Z.of_nat (S (S k))) with (Z.succ (Z.of_nat (S k))) in Hn by lia.
      rewrite Z.pow_succ_r in Hn by lia. lia. }
    specialize (IH (n / 16) (digit_char (n mod 16) :: acc) k Hq).
    simpl in IH. lia.
Qed.

Lemma fill_length (n : nat) (pad cur : jsstring) :
  pad <> [] -> List.length (fill n pad cur) = n.
Proof.
  intros Hp. revert cur. induction n as [|n IH]; intros cur; simpl; [reflexivity|].
  destruct cur as [|c cur]; [destruct pad as [|c pad]; [congruence|]|];
    simpl; now rewrite IH.
Qed.

Lemma fill_Forall (P : Z -> Prop) (n : nat) (pad cur : jsstring) :
  Forall P pad -> Forall P cur -> Forall P (fill n pad cur).
Proof.
  intros Hp. revert cur. induction n as [|n IH]; intros cur Hc; simpl; [constructor|].
  destruct cur as [|c cur].
  - destruct pad as [|c pad]; [constructor|].
    inversion Hp; subst. constructor; [assumption|]. now apply IH.
  - inversion Hc; subst. constructor; [assumption|]. now apply IH.
Qed.

Lemma padStart_length (s pad : jsstring) (n : nat) :
  pad <> [] -> (List.length s <= n)%nat -> List.length (padStart s n pad) = n.
Proof.
  intros Hp Hs. unfold padStart.
  destruct (n <=? List.length s)%nat eqn:E.
  - apply Nat.leb_le in E. lia.
  - apply Nat.leb_gt in E. destruct pad as [|c pad]; [congruence|].
    rewrite length_app, fill_length by discriminate. lia.
Qed.

Lemma padStart_Forall (P : Z -> Prop) (s pad : jsstring) (n : nat) :
  Forall P pad -> Forall P s -> Forall P (padStart s n pad).
Proof.
  intros Hp Hs. unfold padStart.
  destruct (n <=? List.length s)%nat; [exact Hs|].
  destruct pad as [|c pad]; [exact Hs|].
  apply Forall_app; split; [now apply fill_Forall|exact Hs].
Qed.

Lemma try_block_closed (userId : jsstring) :
  generateConsistentUUID_try userId = Ok (uuid_template (hex8 userId)).
Proof.
  unfold generateConsistentUUID_try, hex8, Number_toString.
  change ((16 <? 2) || (36 <? 16)) with false. cbv iota.
  destruct (Z.abs (hash_loop (userId ++ NAMESPACE_UUID) 0) <? 0) eqn:E.
  - apply Z.ltb_lt in E. lia.
  - reflexivity.
Qed.

Lemma mapped_closed (userId : jsstring) :
  mapped userId = uuid_template (hex8 userId).
Proof. unfold mapped. now rewrite try_block_closed. Qed.

Lemma try_block_value (userId : jsstring) :
  generateConsistentUUID_try userId = Ok (mapped userId).
Proof. rewrite mapped_closed. apply try_block_closed. Qed.

Lemma hex8_shape (userId : jsstring) :
  List.length (hex8 userId) = 8%nat
  /\ Forall (fun c => lower_hex c = true) (hex8 userId).
Proof.
  unfold hex8.
  pose proof (hash_loop_range (userId ++ NAMESPACE_UUID) 0 ltac:(lia)) as Hr.
  set (n := Z.abs (hash_loop (userId ++ NAMESPACE_UUID) 0)).
  assert (0 <= n < 16 ^ Z.of_nat 8) as Hn.
  { subst n. change (16 ^ Z.of_nat 8) with 4294967296.
    change (2 ^ 31) with 2147483648 in Hr.
    revert Hr. generalize (hash_loop (userId ++ NAMESPACE_UUID) 0). lia. }
  split.
  - apply padStart_length; [discriminate|].
    pose proof (digits_length (digits_fuel n) n [] 7 Hn) as H.
    cbn [List.length Nat.add] in H. exact H.
  - apply padStart_Forall.
    + repeat constructor.
    + apply digits_hex. constructor.
Qed.

Lemma hexClass_lower (c : Z) :
  lower_hex c = true -> node_matches true hexClass c = true.
Proof.
  intros H. unfold lower_hex in H. unfold hexClass, node_matches, existsb, unit_matches, fst, snd.
  apply orb_true_iff in H. destruct H as [H|H]; rewrite H; simpl.
  - reflexivity.
  - now rewrite orb_true_r.
Qed.

Lemma template_valid (c0 c1 c2 c3 c4 c5 c6 c7 : Z) :
  Forall (fun c => lower_hex c = true) [c0; c1; c2; c3; c4; c5; c6; c7] ->
  validateUUID (uuid_template [c0; c1; c2; c3; c4; c5; c6; c7]) = true.
Proof.
  intros H.
  repeat match goal with
         | H : Forall _ (_ :: _) |- _ => inversion H; subst; clear H
         end.
  unfold validateUUID, test.
  change (uuid_template [c0; c1; c2; c3; c4; c5; c6; c7])
    with [c0; c1; c2; c3; c4; c5; c6; c7; 45; c0; c1; c2; c3; 45; 52; c1; c2; c3;
          45; 97; c0; c1; c2; 45; c0; c1; c2; c3; c4; c5; c6; c7; 48; 48; 48; 48].
  cbn [uuidRegex atoms ignoreCase expand repeat app match_nodes].
  repeat match goal with
         | |- andb _ _ = true => apply andb_true_intro; split
         | |- node_matches true hexClass _ = true =>
             first [apply hexClass_lower; assumption | reflexivity]
         | |- _ => reflexivity
         end.
Qed.

Lemma length_8 (l : jsstring) :
  List.length l = 8%nat ->
  exists c0 c1 c2 c3 c4 c5 c6 c7, l = [c0; c1; c2; c3; c4; c5; c6; c7].
Proof.
  intros H.
  do 8 (destruct l as [|? l]; [discriminate|]).
  destruct l; [|discriminate]. repeat eexists.
Qed.

Lemma mapper_value (randomUUID : result jsstring) (userId : jsstring) :
  generateConsistentUUID randomUUID userId = Ok (mapped userId).
Proof.
  unfold generateConsistentUUID. now rewrite try_block_value.
Qed.

Lemma mapped_valid (userId : jsstring) :
  validateUUID (mapped userId) = true.
Proof.
  rewrite mapped_closed. destruct (hex8_shape userId) as [Hl Hh].
  destruct (length_8 _ Hl) as (c0 & c1 & c2 & c3 & c4 & c5 & c6 & c7 & E).
  rewrite E in *. now apply template_valid.
Qed.

Lemma mapped_shape (userId : jsstring) :
  List.length (mapped userId) = 36%nat
  /\ nth 14 (mapped userId) 0 = 52
  /\ nth 19 (mapped userId) 0 = 97
  /\ Forall (fun c => lower_hex c = true \/ c = 45) (mapped userId).
Proof.
  rewrite mapped_closed. destruct (hex8_shape userId) as [Hl Hh].
  destruct (length_8 _ Hl) as (c0 & c1 & c2 & c3 & c4 & c5 & c6 & c7 & E).
  rewrite E in *.
  repeat match goal with
         | H : Forall _ (_ :: _) |- _ => inversion H; subst; clear H
         end.
  change (uuid_template [c0; c1; c2; c3; c4; c5; c6; c7])
    with [c0; c1; c2; c3; c4; c5; c6; c7; 45; c0; c1; c2; c3; 45; 52; c1; c2; c3;
          45; 97; c0; c1; c2; 45; c0; c1; c2; c3; c4; c5; c6; c7; 48; 48; 48; 48].
  repeat split.
  repeat (constructor; [first [left; assumption | right; reflexivity | left; reflexivity]|]).
  constructor.
Qed.

(** C1. For every string the mapper returns an identifier that the format
    validator accepts, whatever the random fallback would have produced.
    The identifier has 36 characters, all lowercase hexadecimal digits or
    dashes, with the version character '4' and the variant character 'a'. *)
Theorem mapper_output_valid (randomUUID : result jsstring) (s : jsstring) :
  exists uuid,
    generateConsistentUUID randomUUID s = Ok uuid
    /\ validateUUID uuid = true
    /\ List.length uuid = 36%nat
    /\ nth 14 uuid 0 = 52
    /\ nth 19 uuid 0 = 97
    /\ Forall (fun c => lower_hex c = true \/ c = 45) uuid.
Proof.
  exists (mapped s). split; [apply mapper_value|].
  split; [apply mapped_valid|apply mapped_shape].
Qed.

(** C7. The mapper is deterministic: its [try] block completes with a value
    on every string, so the [catch] handler and its random identifier are
    never used, and two calls on the same string agree whatever
    [crypto.randomUUID] would have produced in each. *)
Theorem mapper_deterministic (s : jsstring) (random1 random2 : result jsstring) :
  generateConsistentUUID random1 s = generateConsistentUUID random2 s
  /\ (exists uuid, generateConsistentUUID_try s = Ok uuid)
  /\ generateConsistentUUID random1 s = generateConsistentUUID_try s.
Proof.
  rewrite !mapper_value, try_block_value. eauto.
Qed.

(** C9. The mapper is not injective: "Aa" and "BB" are different strings
    with the same identifier.  More generally the identifier is a function
    of the absolute value of the 32-bit hash alone. *)
Theorem mapper_not_injective :
  (exists s1 s2 : jsstring,
      s1 <> s2
      /\ forall r, generateConsistentUUID r s1 = generateConsistentUUID r s2)
  /\ (forall (s1 s2 : jsstring) r,
         Z.abs (hash_loop (s1 ++ NAMESPACE_UUID) 0)
         = Z.abs (hash_loop (s2 ++ NAMESPACE_UUID) 0) ->
         generateConsistentUUID r s1 = generateConsistentUUID r s2).
Proof.
  split.
  - exists (str "Aa"), (str "BB"). split; [discriminate|].
    intros r. rewrite !mapper_value. apply f_equal. vm_compute. reflexivity.
  - intros s1 s2 r H. rewrite !mapper_value, !mapped_closed. unfold hex8. now rewrite H.
Qed.

(** The pinned value for "user-123". *)
Example mapper_user_123 :
  generateConsistentUUID no_random alice
  = Ok (str "0275657e-0275-4275-a027-0275657e0000").
Proof. vm_compute. reflexivity. Qed.

(** The validator is a real check: it accepts upper case, and rejects a
    missing separator, a short group, and version or variant nibbles out of
    range. *)
Example validator_cases :
  validateUUID (str "0275657E-0275-4275-A027-0275657E0000") = true
  /\ validateUUID (str "0275657e02754275a0270275657e0000") = false
  /\ validateUUID (str "0275657e-0275-4275-a027-0275657e000") = false
  /\ validateUUID (str "0275657e-0275-6275-a027-0275657e0000") = false
  /\ validateUUID (str "0275657e-0275-4275-c027-0275657e0000") = false
  /\ validateUUID (str "0275657g-0275-4275-a027-0275657e0000") = false
  /\ validateUUID [] = false.
Proof. vm_compute. repeat split. Qed.

(** The fuel of [Number_toString] is enough: the digits read back as the
    number, in every admissible radix. *)
Lemma digit_value_char (d : Z) : 0 <= d < 36 -> digit_value (digit_char d) = d.
Proof.
  intros H. unfold digit_value, digit_char.
  destruct (d <? 10) eqn:E; [apply Z.ltb_lt in E|apply Z.ltb_ge in E].
  - destruct (48 + d <? 58) eqn:F; [lia|apply Z.ltb_ge in F; lia].
  - destruct (87 + d <? 58) eqn:F; [apply Z.ltb_lt in F; lia|lia].
Qed.

Lemma digits_parse (radix : Z) (fuel : nat) (n : Z) (acc : jsstring) :
  2 <= radix <= 36 -> 0 <= n < 2 ^ Z.of_nat fuel ->
  parse_digits radix (digits fuel radix n acc) 0 = parse_digits radix acc n.
Proof.
  intros Hr. revert n acc. induction fuel as [|fuel IH]; intros n acc Hn.
  - change (2 ^ Z.of_nat 0) with 1 in Hn. assert (n = 0) by lia. now subst.
  - cbn [digits].
    pose proof (Z.mod_pos_bound n radix ltac:(lia)) as Hm.
    pose proof (Z.div_mod n radix ltac:(lia)) as Hd.
    destruct (n / radix =? 0) eqn:E.
    + apply Z.eqb_eq in E. unfold parse_digits. cbn [fold_left].
      rewrite digit_value_char by lia. f_equal. rewrite E in Hd. lia.
    + rewrite IH.
      * unfold parse_digits. cbn [fold_left].
        rewrite digit_value_char by lia. f_equal. lia.
      * split; [apply Z.div_pos; lia|].
        apply Z.div_lt_upper_bound; [lia|].
        replace (Z.of_nat (S fuel)) with (Z.succ (Z.of_nat fuel)) in Hn by lia.
        rewrite Z.pow_succ_r in Hn by lia. nia.
Qed.

Lemma Number_toString_parse (n radix : Z) :
  2 <= radix <= 36 -> 0 <= n ->
  exists s, Number_toString n radix = Ok s /\ parse_digits radix s 0 = n.
Proof.
  intros Hr Hn. unfold Number_toString.
  destruct ((radix <? 2) || (36 <? radix)) eqn:E.
  - apply orb_true_iff in E. destruct E as [E|E]; apply Z.ltb_lt in E; lia.
  - destruct (n <? 0) eqn:F; [apply Z.ltb_lt in F; lia|].
    eexists; split; [reflexivity|].
    rewrite digits_parse; [reflexivity|exact Hr|].
    split; [exact Hn|]. unfold digits_fuel.
    destruct (Z.eq_dec n 0) as [->|Hz]; [reflexivity|].
    rewrite Nat2Z.inj_succ, Z2Nat.id by apply Z.log2_nonneg.
    apply Z.log2_spec. lia.
Qed.

(* ================================================================== *)
(** * The resolver over an arbitrary backend *)
(* ================================================================== *)

Lemma mapped_nonempty (userId : jsstring) : truthy (mapped userId) = true.
Proof.
  pose proof (mapped_valid userId) as H.
  destruct (mapped userId); [discriminate H|reflexivity].
Qed.

Section Resolution.
Context {St : Type}.
Variable client : query -> St -> settled * St.

Lemma run_bind {A B} (p : prog A) (f : A -> prog B) (st : St) :
  run client (bind p f) st =
  let '(r, st1, tr1) := run client p st in
  match r with
  | Ok a => let '(r2, st2, tr2) := run client (f a) st1 in (r2, st2, tr1 ++ tr2)
  | Err e => (Err e, st1, tr1)
  end.
Proof.
  revert st. induction p as [a|e|q k IH]; intros st; cbn [bind run].
  - destruct (run client (f a) st) as [[r2 st2] tr2]. reflexivity.
  - reflexivity.
  - destruct (client q st) as [s st1]. rewrite IH.
    destruct (run client (k s) st1) as [[[a|e] st2] tr1].
    + destruct (run client (f a) st2) as [[r3 st3] tr3]. reflexivity.
    + reflexivity.
Qed.

(** The first [try] block never throws; it makes only lookups, and an id
    it returns was carried back by one of them. *)
Lemma lookup_total (id e : jsstring) (st : St) :
  exists fl st1 tr1,
    run client (Resolver.lookup_existing id e) st = (Ok fl, st1, tr1)
    /\ Forall (fun ev => is_creation (fst ev) = false) tr1
    /\ (forall v, fl = Returned v -> In v (supplied_ids tr1)).
Proof.
  unfold Resolver.lookup_existing, await. cbn [bind try_catch run].
  destruct (client (SelectIdById id) st) as [[[[v1|] er1]|x1] st1];
    cbn [bind try_catch run data].
  - do 3 eexists. split; [reflexivity|]. split; [repeat constructor|].
    intros v [= <-]. now left.
  - destruct (client (SelectIdByEmail e) st1) as [[[[v2|] er2]|x2] st2];
      cbn [bind try_catch run data];
      do 3 eexists; (split; [reflexivity|]); (split; [repeat constructor|]);
      intros v Hv; try discriminate Hv.
    injection Hv as <-. cbn. now left.
  - do 3 eexists. split; [reflexivity|]. split; [repeat constructor|].
    intros v Hv; discriminate Hv.
Qed.

(** The second [try] block never throws; it makes only creation requests,
    and it returns the mapped id or an id one of them carried back. *)
Lemma create_total (cand c f e r : jsstring) (st : St) :
  exists w st2 tr2,
    run client (Resolver.create_profile cand c f e r) st = (Ok w, st2, tr2)
    /\ Forall (fun ev => is_creation (fst ev) = true) tr2
    /\ (w = cand \/ In w (supplied_ids tr2)).
Proof.
  unfold Resolver.create_profile, Resolver.direct_insert, await.
  cbn [bind try_catch run].
  destruct (client (Rpc_get_or_create_user_profile c f e r) st)
    as [[[[v1|] [er1|]]|x1] st1]; cbn [bind try_catch run data error].
  - destruct (client (InsertProfile cand f e r (str "clerk")) st1)
      as [[[[v2|] [er2|]]|x2] st2]; cbn [bind try_catch run data error];
      do 3 eexists; (split; [reflexivity|]); (split; [repeat constructor|]);
      cbn; auto.
  - destruct (truthy v1); cbn [run];
      do 3 eexists; (split; [reflexivity|]); (split; [repeat constructor|]);
      cbn; auto.
  - destruct (client (InsertProfile cand f e r (str "clerk")) st1)
      as [[[[v2|] [er2|]]|x2] st2]; cbn [bind try_catch run data error];
      do 3 eexists; (split; [reflexivity|]); (split; [repeat constructor|]);
      cbn; auto.
  - do 3 eexists. split; [reflexivity|]. split; [repeat constructor|]. auto.
  - do 3 eexists. split; [reflexivity|]. split; [repeat constructor|]. auto.
Qed.

Lemma run_full (random : result jsstring) (c f e : jsstring)
  (role : option jsstring) (st : St) :
  run client (Resolver.getOrCreateUserProfile random c f e role) st =
  let '(r, st1, tr1) := run client (Resolver.lookup_existing (mapped c) e) st in
  match r with
  | Ok (Returned v) => (Ok v, st1, tr1)
  | Ok Normal =>
      let '(r2, st2, tr2) :=
        run client (Resolver.create_profile (mapped c) c f e
                      (Resolver.default_role role)) st1 in
      (r2, st2, tr1 ++ tr2)
  | Err x => (Err x, st1, tr1)
  end.
Proof.
  unfold Resolver.getOrCreateUserProfile. rewrite mapper_value.
  cbn [lift bind]. rewrite run_bind.
  destruct (run client (Resolver.lookup_existing (mapped c) e) st)
    as [[[[v|]|x] st1] tr1]; cbn [run]; try reflexivity.
  now rewrite app_nil_r.
Qed.

Lemma run_workaround (random : result jsstring) (c f e : jsstring)
  (role : option jsstring) (st : St) :
  run client (Workaround.getOrCreateUserProfile random c f e role) st =
  let '(r, st1, tr1) := run client (Resolver.lookup_existing (mapped c) e) st in
  match r with
  | Ok (Returned v) => (Ok v, st1, tr1)
  | Ok Normal => (Ok (mapped c), st1, tr1)
  | Err x => (Err x, st1, tr1)
  end.
Proof.
  unfold Workaround.getOrCreateUserProfile. rewrite mapper_value.
  cbn [lift bind]. rewrite run_bind.
  destruct (run client (Resolver.lookup_existing (mapped c) e) st)
    as [[[[v|]|x] st1] tr1]; cbn [run]; try reflexivity;
    now rewrite app_nil_r.
Qed.

End Resolution.

Lemma supplied_ids_app (a b : list event) :
  supplied_ids (a ++ b) = supplied_ids a ++ supplied_ids b.
Proof.
  induction a as [|[q [[[v|] er]|x]] a IH]; cbn [app supplied_ids];
    rewrite ?IH; reflexivity.
Qed.

(** C3, as the code has it.  Whatever the backend does, neither revision of
    the resolver throws.  The value returned is the mapped id, which passes
    the validator, or an id that a fulfilled request carried back, which the
    resolver passes on as it is. *)
Theorem resolver_never_raises {St : Type} (client : query -> St -> settled * St)
  (random : result jsstring) (c f e : jsstring) (role : option jsstring) (st : St) :
  (exists v,
      completion (run client (Resolver.getOrCreateUserProfile random c f e role) st) = Ok v
      /\ (v = mapped c
          \/ In v (supplied_ids
                     (snd (run client (Resolver.getOrCreateUserProfile random c f e role) st)))))
  /\ (exists v,
      completion (run client (Workaround.getOrCreateUserProfile random c f e role) st) = Ok v
      /\ (v = mapped c
          \/ In v (supplied_ids
                     (snd (run client (Workaround.getOrCreateUserProfile random c f e role) st)))))
  /\ generateConsistentUUID random c = Ok (mapped c)
  /\ validateUUID (mapped c) = true.
Proof.
  rewrite run_full, run_workaround.
  destruct (lookup_total client (mapped c) e st) as (fl & st1 & tr1 & -> & _ & Hfl).
  split; [|split; [|split; [apply mapper_value|apply mapped_valid]]].
  - destruct fl as [v|].
    + exists v. split; [reflexivity|]. right. now apply Hfl.
    + destruct (create_total client (mapped c) c f e (Resolver.default_role role) st1)
        as (w & st2 & tr2 & -> & _ & Hw).
      exists w. split; [reflexivity|]. cbn [snd].
      rewrite supplied_ids_app, in_app_iff. tauto.
  - destruct fl as [v|].
    + exists v. split; [reflexivity|]. right. now apply Hfl.
    + exists (mapped c). split; [reflexivity|]. now left.
Qed.

(** C3, counterexample.  A table holds a record for the same email under a
    version-7 identifier; both revisions return that identifier, and the
    validator rejects it. *)
Lemma resolver_passes_on_unvalidated_id :
  completion (run (MemStore.client MemStore.RpcBroken)
                (Resolver.getOrCreateUserProfile no_random alice alice_name alice_email None)
                legacy_table) = Ok uuid_v7
  /\ completion (run (MemStore.client MemStore.RpcBroken)
                   (Workaround.getOrCreateUserProfile no_random alice alice_name alice_email None)
                   legacy_table) = Ok uuid_v7
  /\ validateUUID uuid_v7 = false.
Proof. vm_compute. auto. Qed.

(** C5. When the backend cannot be reached (every request is rejected or
    resolves with an error and no data, and nothing changes), both revisions
    of the resolver return exactly what the mapper gives for the external
    id, without throwing, and the backend state is what it was. *)
Theorem unreachable_fallback {St : Type} (client : query -> St -> settled * St)
  (Hdown : unreachable client)
  (random : result jsstring) (c f e : jsstring) (role : option jsstring) (st : St) :
  exists v,
    generateConsistentUUID random c = Ok v
    /\ completion (run client (Resolver.getOrCreateUserProfile random c f e role) st) = Ok v
    /\ final (run client (Resolver.getOrCreateUserProfile random c f e role) st) = st
    /\ completion (run client (Workaround.getOrCreateUserProfile random c f e role) st) = Ok v
    /\ final (run client (Workaround.getOrCreateUserProfile random c f e role) st) = st.
Proof.
  exists (mapped c). split; [apply mapper_value|].
  assert (exists tr1, run client (Resolver.lookup_existing (mapped c) e) st
                      = (Ok Normal, st, tr1)) as [tr1 Hl].
  { unfold Resolver.lookup_existing, await. cbn [bind try_catch run].
    pose proof (Hdown (SelectIdById (mapped c)) st) as H1.
    destruct (client (SelectIdById (mapped c)) st) as [[[d1 er1]|x1] st1];
      cbn [fst snd failed data error] in H1; destruct H1 as [H1 ->].
    - destruct H1 as [-> _]. cbn [bind try_catch run data].
      pose proof (Hdown (SelectIdByEmail e) st) as H2.
      destruct (client (SelectIdByEmail e) st) as [[[d2 er2]|x2] st2];
        cbn [fst snd failed data error] in H2; destruct H2 as [H2 ->].
      + destruct H2 as [-> _]. cbn [bind try_catch run data]. eauto.
      + cbn [bind try_catch run]. eauto.
    - cbn [bind try_catch run]. eauto. }
  assert (exists tr2, run client (Resolver.create_profile (mapped c) c f e
                                    (Resolver.default_role role)) st
                      = (Ok (mapped c), st, tr2)) as [tr2 Hc].
  { unfold Resolver.create_profile, Resolver.direct_insert, await.
    cbn [bind try_catch run].
    set (rpcq := Rpc_get_or_create_user_profile c f e (Resolver.default_role role)).
    pose proof (Hdown rpcq st) as H1.
    destruct (client rpcq st) as [[[d1 er1]|x1] st1];
      cbn [fst snd failed data error] in H1; destruct H1 as [H1 ->].
    - destruct H1 as [-> Her]. destruct er1 as [er1|]; [|congruence].
      cbn [bind try_catch run data error].
      set (insq := InsertProfile _ _ _ _ _).
      pose proof (Hdown insq st) as H2.
      destruct (client insq st) as [[[d2 er2]|x2] st2];
        cbn [fst snd failed data error] in H2; destruct H2 as [H2 ->].
      + destruct H2 as [-> Her2]. destruct er2 as [er2|]; [|congruence].
        cbn [bind try_catch run data error]. eauto.
      + cbn [bind try_catch run]. eauto.
    - cbn [bind try_catch run]. eauto. }
  rewrite run_full, run_workaround, Hl, Hc. cbn. auto.
Qed.

(** C5, witness: a backend that rejects every request. *)
Lemma unreachable_fallback_offline :
  unreachable offline
  /\ exists v,
    generateConsistentUUID no_random alice = Ok v
    /\ completion (run offline (Resolver.getOrCreateUserProfile no_random alice alice_name alice_email None) tt) = Ok v
    /\ final (run offline (Resolver.getOrCreateUserProfile no_random alice alice_name alice_email None) tt) = tt
    /\ completion (run offline (Workaround.getOrCreateUserProfile no_random alice alice_name alice_email None) tt) = Ok v
    /\ final (run offline (Workaround.getOrCreateUserProfile no_random alice alice_name alice_email None) tt) = tt.
Proof.
  assert (unreachable offline) as H.
  { intros q st. split; [exact I|reflexivity]. }
  split; [exact H|].
  exact (unreachable_fallback offline H no_random alice alice_name alice_email None tt).
Defined.

(** Reconciliation at the client boundary.  When the lookup by primary key
    resolves without a row and the lookup by email resolves with a row, both
    revisions return the id of that row, and the two lookups are the only
    requests made: nothing is created. *)
Theorem email_reconciliation {St : Type} (client : query -> St -> settled * St)
  (random : result jsstring) (c f e : jsstring) (role : option jsstring)
  (st st1 st2 : St) (r1 r2 : response) (emailProfile_id : jsstring)
  (Hid : client (SelectIdById (mapped c)) st = (Fulfilled r1, st1))
  (Hnone : data r1 = None)
  (Hemail : client (SelectIdByEmail e) st1 = (Fulfilled r2, st2))
  (Hfound : data r2 = Some emailProfile_id) :
  let tr := [ (SelectIdById (mapped c), Fulfilled r1);
              (SelectIdByEmail e, Fulfilled r2) ] in
  run client (Resolver.getOrCreateUserProfile random c f e role) st
  = (Ok emailProfile_id, st2, tr)
  /\ run client (Workaround.getOrCreateUserProfile random c f e role) st
     = (Ok emailProfile_id, st2, tr)
  /\ forallb (fun q => negb (is_creation q)) (map fst tr) = true.
Proof.
  assert (run client (Resolver.lookup_existing (mapped c) e) st
          = (Ok (Returned emailProfile_id), st2,
             [ (SelectIdById (mapped c), Fulfilled r1);
               (SelectIdByEmail e, Fulfilled r2) ])) as Hl.
  { unfold Resolver.lookup_existing, await. cbn [bind try_catch run].
    rewrite Hid. cbn [bind try_catch run]. rewrite Hnone.
    cbn [bind try_catch run]. rewrite Hemail. cbn [bind try_catch run].
    rewrite Hfound. reflexivity. }
  cbv zeta. rewrite run_full, run_workaround, Hl. auto.
Qed.

(** An instance: the table with the record created through another path. *)
Lemma email_reconciliation_legacy :
  run (MemStore.client MemStore.RpcBroken)
    (Resolver.getOrCreateUserProfile no_random alice alice_name alice_email None)
    legacy_table
  = (Ok uuid_v7, legacy_table,
     [ (SelectIdById (mapped alice),
        Fulfilled {| data := None; error := None |});
       (SelectIdByEmail alice_email,
        Fulfilled {| data := Some uuid_v7; error := None |}) ])
  /\ mapped alice <> uuid_v7.
Proof.
  split.
  - refine (proj1 (email_reconciliation (MemStore.client MemStore.RpcBroken)
                     no_random alice alice_name alice_email None
                     legacy_table legacy_table legacy_table
                     {| data := None; error := None |}
                     {| data := Some uuid_v7; error := None |}
                     uuid_v7 _ _ _ _)); vm_compute; reflexivity.
  - vm_compute. discriminate.
Defined.

(** C4, as the code has it.  When the lookups end without a record, the
    skipping revision returns the mapped id at once and makes no further
    request.  The other revision calls the database function with the
    external id (not the mapped id) and the attributes: an id it returns
    without error is returned if it is not empty; after an error a direct
    insert keyed by the mapped id is tried and the id of the inserted row is
    returned; in every other case (the call is rejected, no id comes back,
    the insert fails, is rejected or gives no row) the mapped id is
    returned. *)
Theorem creation_protocol {St : Type} (client : query -> St -> settled * St)
  (random : result jsstring) (c f e : jsstring) (role : option jsstring)
  (st st1 : St) (tr1 : list event)
  (Hnone : run client (Resolver.lookup_existing (mapped c) e) st
           = (Ok Normal, st1, tr1)) :
  let role' := Resolver.default_role role in
  let rpcq := Rpc_get_or_create_user_profile c f e role' in
  let insq := InsertProfile (mapped c) f e role' (str "clerk") in
  let full := run client (Resolver.getOrCreateUserProfile random c f e role) st in
  run client (Workaround.getOrCreateUserProfile random c f e role) st
  = (Ok (mapped c), st1, tr1)
  /\ match client rpcq st1 with
     | (Fulfilled {| data := d; error := None |} as s, st2) =>
         full = (Ok match d with
                    | Some profileId =>
                        if truthy profileId then profileId else mapped c
                    | None => mapped c
                    end, st2, tr1 ++ [(rpcq, s)])
     | (Fulfilled {| error := Some _ |} as s, st2) =>
         match client insq st2 with
         | (Fulfilled {| data := Some insertData_id; error := None |} as s', st3) =>
             full = (Ok insertData_id, st3, tr1 ++ [(rpcq, s); (insq, s')])
         | (s', st3) =>
             full = (Ok (mapped c), st3, tr1 ++ [(rpcq, s); (insq, s')])
         end
     | (Rejected _ as s, st2) =>
         full = (Ok (mapped c), st2, tr1 ++ [(rpcq, s)])
     end.
Proof.
  cbv zeta. rewrite run_full, run_workaround, Hnone.
  split; [reflexivity|].
  unfold Resolver.create_profile, Resolver.direct_insert, await.
  cbn [bind try_catch run].
  destruct (client (Rpc_get_or_create_user_profile c f e (Resolver.default_role role)) st1)
    as [[[[v1|] [er1|]]|x1] st2]; cbn [bind try_catch run data error].
  - destruct (client (InsertProfile (mapped c) f e (Resolver.default_role role) (str "clerk")) st2)
      as [[[[v2|] [er2|]]|x2] st3]; cbn [bind try_catch run data error]; reflexivity.
  - destruct (truthy v1); reflexivity.
  - destruct (client (InsertProfile (mapped c) f e (Resolver.default_role role) (str "clerk")) st2)
      as [[[[v2|] [er2|]]|x2] st3]; cbn [bind try_catch run data error]; reflexivity.
  - reflexivity.
  - reflexivity.
Qed.

(** C4, witness: an empty table whose database function fails; the direct
    insert creates the record under the mapped id. *)
Lemma creation_protocol_empty_table :
  let tr1 :=
    [ (SelectIdById (mapped alice), Fulfilled {| data := None; error := None |});
      (SelectIdByEmail alice_email, Fulfilled {| data := None; error := None |}) ] in
  let row :=
    {| MemStore.id := mapped alice; MemStore.full_name := alice_name;
       MemStore.email := alice_email; MemStore.role := str "student";
       MemStore.auth_provider := str "clerk" |} in
  run (MemStore.client MemStore.RpcBroken)
    (Resolver.lookup_existing (mapped alice) alice_email) []
  = (Ok Normal, [], tr1)
  /\ run (MemStore.client MemStore.RpcBroken)
       (Workaround.getOrCreateUserProfile no_random alice alice_name alice_email None) []
     = (Ok (mapped alice), [], tr1)
  /\ run (MemStore.client MemStore.RpcBroken)
       (Resolver.getOrCreateUserProfile no_random alice alice_name alice_email None) []
     = (Ok (mapped alice), [row],
        tr1 ++ [ (Rpc_get_or_create_user_profile alice alice_name alice_email (str "student"),
                  Fulfilled {| data := None; error := Some (PgError (str "PGRST202")) |});
                 (InsertProfile (mapped alice) alice_name alice_email (str "student") (str "clerk"),
                  Fulfilled {| data := Some (mapped alice); error := None |}) ]).
Proof.
  cbv zeta.
  assert (run (MemStore.client MemStore.RpcBroken)
            (Resolver.lookup_existing (mapped alice) alice_email) []
          = (Ok Normal, [],
             [ (SelectIdById (mapped alice), Fulfilled {| data := None; error := None |});
               (SelectIdByEmail alice_email, Fulfilled {| data := None; error := None |}) ]))
    as H by (vm_compute; reflexivity).
  split; [exact H|].
  exact (creation_protocol (MemStore.client MemStore.RpcBroken)
           no_random alice alice_name alice_email None [] [] _ H).
Defined.

(** C4, counterexample.  On an empty table both lookups find nothing, yet
    the skipping revision makes no creation request at all, and the other
    revision, whose database function succeeds, makes no creation request
    keyed by the mapped id: the function is given the external id. *)
Lemma creation_not_keyed_by_mapped_id :
  completion (run (MemStore.client MemStore.RpcGetOrCreate)
                (Resolver.lookup_existing (mapped alice) alice_email) []) = Ok Normal
  /\ existsb is_creation
       (requests (run (MemStore.client MemStore.RpcGetOrCreate)
                    (Workaround.getOrCreateUserProfile no_random alice alice_name alice_email None) []))
     = false
  /\ requests (run (MemStore.client MemStore.RpcGetOrCreate)
                 (Resolver.getOrCreateUserProfile no_random alice alice_name alice_email None) [])
     = [ SelectIdById (mapped alice); SelectIdByEmail alice_email;
         Rpc_get_or_create_user_profile alice alice_name alice_email (str "student") ]
  /\ existsb (creation_keyed_by (mapped alice))
       (requests (run (MemStore.client MemStore.RpcGetOrCreate)
                    (Resolver.getOrCreateUserProfile no_random alice alice_name alice_email None) []))
     = false.
Proof. vm_compute. auto. Qed.

(** Over an arbitrary backend the two revisions make the same lookups.  When
    a lookup finds a record they return its id and leave the same state.
    Otherwise the skipping revision returns the mapped id, and the other
    revision goes on with creation requests only and returns the mapped id
    or an id that one of those requests carried back. *)
Theorem revisions_agree_up_to_creation {St : Type}
  (client : query -> St -> settled * St)
  (random : result jsstring) (c f e : jsstring) (role : option jsstring) (st : St) :
  let full := run client (Resolver.getOrCreateUserProfile random c f e role) st in
  let skip := run client (Workaround.getOrCreateUserProfile random c f e role) st in
  exists v w tr,
    completion skip = Ok v
    /\ completion full = Ok w
    /\ snd full = snd skip ++ tr
    /\ Forall (fun ev => is_creation (fst ev) = true) tr
    /\ ((w = v /\ tr = [] /\ final full = final skip)
        \/ (v = mapped c /\ (w = v \/ In w (supplied_ids tr)))).
Proof.
  cbv zeta. rewrite run_full, run_workaround.
  destruct (lookup_total client (mapped c) e st) as (fl & st1 & tr1 & -> & _ & _).
  destruct fl as [v|].
  - exists v, v, []. cbn. rewrite app_nil_r. repeat split; auto.
  - destruct (create_total client (mapped c) c f e (Resolver.default_role role) st1)
      as (w & st2 & tr2 & -> & Hcr & Hw).
    exists (mapped c), w, tr2. cbn. repeat split; auto.
Qed.

(** So the revisions return the same id whenever no creation request
    carries back an id other than the mapped one. *)
Corollary revisions_agree_when_creation_keeps_id {St : Type}
  (client : query -> St -> settled * St)
  (random : result jsstring) (c f e : jsstring) (role : option jsstring) (st : St) :
  (forall q s st0 st1 v,
      is_creation q = true -> client q st0 = (Fulfilled s, st1) ->
      data s = Some v -> v = mapped c) ->
  completion (run client (Resolver.getOrCreateUserProfile random c f e role) st)
  = completion (run client (Workaround.getOrCreateUserProfile random c f e role) st).
Proof.
  intros Hkeep. rewrite run_full, run_workaround.
  destruct (lookup_total client (mapped c) e st) as (fl & st1 & tr1 & -> & _ & _).
  destruct fl as [v|]; [reflexivity|].
  unfold Resolver.create_profile, Resolver.direct_insert, await.
  cbn [bind try_catch run].
  destruct (client (Rpc_get_or_create_user_profile c f e (Resolver.default_role role)) st1)
    as [[[[v1|] [er1|]]|x1] st2] eqn:E1; cbn [bind try_catch run data error].
  - destruct (client (InsertProfile (mapped c) f e (Resolver.default_role role) (str "clerk")) st2)
      as [[[[v2|] [er2|]]|x2] st3] eqn:E2; cbn [bind try_catch run data error];
      try reflexivity.
    cbn. now rewrite (Hkeep (InsertProfile _ _ _ _ _) _ _ _ v2 eq_refl E2 eq_refl).
  - rewrite (Hkeep (Rpc_get_or_create_user_profile _ _ _ _) _ _ _ v1 eq_refl E1 eq_refl).
    destruct (truthy (mapped c)); reflexivity.
  - destruct (client (InsertProfile (mapped c) f e (Resolver.default_role role) (str "clerk")) st2)
      as [[[[v2|] [er2|]]|x2] st3] eqn:E2; cbn [bind try_catch run data error];
      try reflexivity.
    cbn. now rewrite (Hkeep (InsertProfile _ _ _ _ _) _ _ _ v2 eq_refl E2 eq_refl).
  - reflexivity.
  - reflexivity.
Qed.

(** Outside the table model: against a backend whose database function
    derives its own primary key, the revision that calls it returns the key of
    the function and the skipping revision returns the mapped id. *)
Lemma revisions_differ_on_minted_id :
  completion (run minting
                (Resolver.getOrCreateUserProfile no_random alice alice_name alice_email None) tt)
  = Ok uuid_v5
  /\ completion (run minting
                   (Workaround.getOrCreateUserProfile no_random alice alice_name alice_email None) tt)
     = Ok (mapped alice)
  /\ uuid_v5 <> mapped alice.
Proof.
  split; [vm_compute; reflexivity|]. split; [vm_compute; reflexivity|].
  vm_compute. discriminate.
Qed.

(* ================================================================== *)
(** * The resolver over the in-memory table *)
(* ================================================================== *)

Lemma jsstring_eqb_eq (a b : jsstring) : jsstring_eqb a b = true <-> a = b.
Proof.
  revert b. induction a as [|x a IH]; intros [|y b]; cbn [jsstring_eqb];
    try (split; [discriminate|discriminate]); [tauto|].
  rewrite andb_true_iff, Z.eqb_eq, IH. split.
  - intros [-> ->]. reflexivity.
  - intros [= -> ->]. auto.
Qed.

Lemma jsstring_eqb_refl (a : jsstring) : jsstring_eqb a a = true.
Proof. now apply jsstring_eqb_eq. Qed.

Lemma filter_none_existsb {A} (p : A -> bool) (l : list A) :
  filter p l = [] -> existsb p l = false.
Proof.
  induction l as [|x l IH]; cbn; [reflexivity|].
  destruct (p x); [discriminate|exact IH].
Qed.

Lemma filter_by_id_In (t : MemStore.table) (r : MemStore.ProfileRecord) :
  NoDup (map MemStore.id t) -> In r t ->
  filter (MemStore.by_id (MemStore.id r)) t = [r].
Proof.
  induction t as [|x t IH]; intros Hnd Hin; [destruct Hin|].
  cbn [map] in Hnd. inversion Hnd as [|? ? Hx Hnd']; subst.
  cbn [filter]. destruct Hin as [->|Hin].
  - unfold MemStore.by_id at 1. rewrite jsstring_eqb_refl. f_equal.
    destruct (filter (MemStore.by_id (MemStore.id r)) t) as [|y l] eqn:E; [reflexivity|].
    exfalso. apply Hx.
    assert (In y (filter (MemStore.by_id (MemStore.id r)) t)) as Hy by (rewrite E; now left).
    apply filter_In in Hy. destruct Hy as [Hy Hk].
    apply jsstring_eqb_eq in Hk. rewrite <- Hk. now apply in_map.
  - destruct (MemStore.by_id (MemStore.id r) x) eqn:E.
    + exfalso. apply Hx. apply jsstring_eqb_eq in E. rewrite E. now apply in_map.
    + now apply IH.
Qed.

Lemma filter_single_In {A} (p : A -> bool) (l : list A) (r : A) :
  filter p l = [r] -> In r l /\ p r = true.
Proof.
  intros H. apply filter_In. rewrite H. now left.
Qed.

Lemma filter_by_id_short (t : MemStore.table) (k : jsstring) :
  NoDup (map MemStore.id t) ->
  filter (MemStore.by_id k) t = []
  \/ exists r, filter (MemStore.by_id k) t = [r] /\ MemStore.id r = k.
Proof.
  intros Hnd.
  destruct (filter (MemStore.by_id k) t) as [|r l] eqn:E; [now left|right].
  assert (In r (filter (MemStore.by_id k) t)) as Hr by (rewrite E; now left).
  apply filter_In in Hr. destruct Hr as [Hr Hk]. apply jsstring_eqb_eq in Hk.
  exists r. split; [|exact Hk].
  rewrite <- Hk in E. rewrite (filter_by_id_In t r Hnd Hr) in E.
  now injection E as <-.
Qed.

(** The lookups read the table and leave it as it is. *)
Lemma table_lookup_run (mode : MemStore.rpc_mode) (k e : jsstring) (t : MemStore.table) :
  exists tr,
    run (MemStore.client mode) (Resolver.lookup_existing k e) t
    = (Ok (table_lookup k e t), t, tr).
Proof.
  unfold Resolver.lookup_existing, await, table_lookup.
  cbn [bind try_catch run MemStore.client].
  destruct (data (MemStore.maybeSingle (filter (MemStore.by_id k) t))) as [v|];
    cbn [bind try_catch run MemStore.client]; [eauto|].
  destruct (data (MemStore.maybeSingle (filter (MemStore.by_email e) t))) as [v|];
    cbn [bind try_catch run]; eauto.
Qed.

(** Reconciliation by email on a table: no record under the mapped id, exactly one record
    with the email.  The table is left as it was. *)
Lemma email_reconciliation_table (mode : MemStore.rpc_mode) (t : MemStore.table)
  (random : result jsstring) (c f e : jsstring) (role : option jsstring)
  (r : MemStore.ProfileRecord) :
  filter (MemStore.by_id (mapped c)) t = [] ->
  filter (MemStore.by_email e) t = [r] ->
  completion (run (MemStore.client mode)
                (Resolver.getOrCreateUserProfile random c f e role) t)
  = Ok (MemStore.id r)
  /\ final (run (MemStore.client mode)
              (Resolver.getOrCreateUserProfile random c f e role) t) = t
  /\ MemStore.id r <> mapped c.
Proof.
  intros Hi He. rewrite run_full.
  unfold Resolver.lookup_existing, await.
  cbn [bind try_catch run MemStore.client]. rewrite Hi.
  cbn [bind try_catch run MemStore.client MemStore.maybeSingle data]. rewrite He.
  cbn. repeat split.
  intros Heq.
  assert (In r (filter (MemStore.by_id (mapped c)) t)) as Hin.
  { apply filter_In. split.
    - apply (filter_single_In (MemStore.by_email e)). exact He.
    - unfold MemStore.by_id. rewrite Heq. apply jsstring_eqb_refl. }
  rewrite Hi in Hin. destruct Hin.
Qed.

(** C6, as the code has it.  When the table holds no record under the
    mapped id and exactly one record with the supplied email, both revisions
    return the id of that record, which is not the mapped id, after the two
    lookups and nothing else: the table is left as it was and nothing is
    created. *)
Theorem email_reconciliation_single_record (mode : MemStore.rpc_mode)
  (t : MemStore.table) (random : result jsstring) (c f e : jsstring)
  (role : option jsstring) (r : MemStore.ProfileRecord)
  (Hid : filter (MemStore.by_id (mapped c)) t = [])
  (Hemail : filter (MemStore.by_email e) t = [r]) :
  let tr := [ (SelectIdById (mapped c),
               Fulfilled {| data := None; error := None |});
              (SelectIdByEmail e,
               Fulfilled {| data := Some (MemStore.id r); error := None |}) ] in
  run (MemStore.client mode) (Resolver.getOrCreateUserProfile random c f e role) t
  = (Ok (MemStore.id r), t, tr)
  /\ run (MemStore.client mode) (Workaround.getOrCreateUserProfile random c f e role) t
     = (Ok (MemStore.id r), t, tr)
  /\ MemStore.id r <> mapped c
  /\ In r t
  /\ forallb (fun q => negb (is_creation q)) (map fst tr) = true.
Proof.
  cbv zeta.
  assert (run (MemStore.client mode) (Resolver.lookup_existing (mapped c) e) t
          = (Ok (Returned (MemStore.id r)), t,
             [ (SelectIdById (mapped c),
                Fulfilled {| data := None; error := None |});
               (SelectIdByEmail e,
                Fulfilled {| data := Some (MemStore.id r); error := None |}) ]))
    as Hl.
  { unfold Resolver.lookup_existing, await.
    cbn [bind try_catch run MemStore.client]. rewrite Hid.
    cbn [bind try_catch run MemStore.client MemStore.maybeSingle data].
    rewrite Hemail. reflexivity. }
  rewrite run_full, run_workaround, Hl.
  destruct (filter_single_In _ _ _ Hemail) as [Hin _].
  repeat split; try assumption.
  intros Heq.
  assert (In r (filter (MemStore.by_id (mapped c)) t)) as Hr.
  { apply filter_In. split; [exact Hin|].
    unfold MemStore.by_id. rewrite Heq. apply jsstring_eqb_refl. }
  rewrite Hid in Hr. destruct Hr.
Qed.

(** C6, witness: the table with the one record created through another
    path. *)
Lemma email_reconciliation_single_legacy :
  run (MemStore.client MemStore.RpcBroken)
    (Resolver.getOrCreateUserProfile no_random alice alice_name alice_email None)
    legacy_table
  = (Ok uuid_v7, legacy_table,
     [ (SelectIdById (mapped alice),
        Fulfilled {| data := None; error := None |});
       (SelectIdByEmail alice_email,
        Fulfilled {| data := Some uuid_v7; error := None |}) ])
  /\ uuid_v7 <> mapped alice.
Proof.
  pose proof (email_reconciliation_single_record MemStore.RpcBroken legacy_table
                no_random alice alice_name alice_email None
                {| MemStore.id := uuid_v7; MemStore.full_name := alice_name;
                   MemStore.email := alice_email; MemStore.role := str "student";
                   MemStore.auth_provider := str "clerk" |}
                ltac:(vm_compute; reflexivity) ltac:(vm_compute; reflexivity)) as H.
  cbv zeta in H. destruct H as (H1 & _ & H3 & _).
  split; [exact H1|exact H3].
Defined.

(** C6, counterexample.  The table holds no record under the mapped id and
    two records with the supplied email.  The lookup by email then resolves
    without data, so neither revision returns the id of an existing record:
    both return the mapped id, and the revision that creates adds a third
    record. *)
Lemma shared_email_is_not_reconciled :
  filter (MemStore.by_id (mapped alice)) twin_table = []
  /\ existsb (MemStore.by_email alice_email) twin_table = true
  /\ completion (run (MemStore.client MemStore.RpcBroken)
                   (Resolver.getOrCreateUserProfile no_random alice alice_name alice_email None)
                   twin_table) = Ok (mapped alice)
  /\ completion (run (MemStore.client MemStore.RpcBroken)
                   (Workaround.getOrCreateUserProfile no_random alice alice_name alice_email None)
                   twin_table) = Ok (mapped alice)
  /\ existsb (MemStore.by_id (mapped alice)) twin_table = false
  /\ List.length twin_table = 2%nat
  /\ List.length
       (final (run (MemStore.client MemStore.RpcBroken)
                 (Resolver.getOrCreateUserProfile no_random alice alice_name alice_email None)
                 twin_table)) = 3%nat.
Proof. vm_compute. repeat split. Qed.

Lemma table_lookup_found (k e v : jsstring) (t : MemStore.table) :
  NoDup (map MemStore.id t) ->
  table_lookup k e t = Returned v -> MemStore.count_id v t = 1%nat.
Proof.
  intros Hnd H. unfold table_lookup in H.
  assert (forall rows, (forall r, rows = [r] -> In r t) ->
                       data (MemStore.maybeSingle rows) = Some v ->
                       MemStore.count_id v t = 1%nat) as Hone.
  { intros rows Hin Hd. destruct rows as [|r [|r' rows]]; try discriminate Hd.
    cbn in Hd. injection Hd as <-. unfold MemStore.count_id.
    now rewrite (filter_by_id_In t r Hnd (Hin r eq_refl)). }
  destruct (data (MemStore.maybeSingle (filter (MemStore.by_id k) t))) as [v1|] eqn:E1.
  - injection H as <-. apply (Hone _ (fun r Hr => proj1 (filter_single_In _ _ _ Hr)) E1).
  - destruct (data (MemStore.maybeSingle (filter (MemStore.by_email e) t))) as [v2|] eqn:E2;
      [|discriminate H].
    injection H as <-. apply (Hone _ (fun r Hr => proj1 (filter_single_In _ _ _ Hr)) E2).
Qed.

Lemma table_lookup_none (k e : jsstring) (t : MemStore.table) :
  NoDup (map MemStore.id t) ->
  table_lookup k e t = Normal -> filter (MemStore.by_id k) t = [].
Proof.
  intros Hnd H. unfold table_lookup in H.
  destruct (filter_by_id_short t k Hnd) as [E|(r & E & _)]; [exact E|].
  rewrite E in H. discriminate H.
Qed.

(** Creation on a table that holds no record under the mapped id: in both
    modes of the database function the record is stored under the mapped
    id, which is returned. *)
Lemma table_create (mode : MemStore.rpc_mode) (t : MemStore.table)
  (c f e r : jsstring) :
  filter (MemStore.by_id (mapped c)) t = [] ->
  exists row tr,
    MemStore.id row = mapped c
    /\ run (MemStore.client mode) (Resolver.create_profile (mapped c) c f e r) t
       = (Ok (mapped c), t ++ [row], tr).
Proof.
  intros Hnone. apply filter_none_existsb in Hnone.
  unfold Resolver.create_profile, Resolver.direct_insert, await.
  cbn [bind try_catch run MemStore.client].
  destruct mode; unfold MemStore.rpc.
  - cbn [bind try_catch run MemStore.client data error].
    unfold MemStore.insert. cbn [MemStore.id]. rewrite Hnone.
    cbn [bind try_catch run data error].
    eexists _, _. split; [|reflexivity]. reflexivity.
  - rewrite Hnone.
    cbn [bind try_catch run data error]. rewrite mapped_nonempty. cbn [run].
    eexists _, _. split; [|reflexivity]. reflexivity.
Qed.



Lemma table_lookup_created (k e : jsstring) (t : MemStore.table)
  (row : MemStore.ProfileRecord) :
  filter (MemStore.by_id k) t = [] -> MemStore.id row = k ->
  table_lookup k e (t ++ [row]) = Returned k
  /\ MemStore.count_id k (t ++ [row]) = 1%nat.
Proof.
  intros Hnone Hk. unfold table_lookup, MemStore.count_id.
  rewrite filter_app, Hnone. cbn [filter app].
  assert (MemStore.by_id k row = true) as ->
    by (unfold MemStore.by_id; rewrite Hk; apply jsstring_eqb_refl).
  cbn. now rewrite Hk.
Qed.

(** The primary-key constraint is kept by every request. *)
Lemma client_keeps_primary_key (mode : MemStore.rpc_mode) (q : query)
  (t : MemStore.table) :
  NoDup (map MemStore.id t) ->
  NoDup (map MemStore.id (snd (MemStore.client mode q t))).
Proof.
  intros Hnd.
  assert (forall row, existsb (MemStore.by_id (MemStore.id row)) t = false ->
                      NoDup (map MemStore.id (t ++ [row]))) as Hadd.
  { intros row Hex. rewrite map_app. cbn [map].
    apply NoDup_app; [exact Hnd|repeat constructor; intros []|].
    intros a Ha [<-|[]]. apply in_map_iff in Ha. destruct Ha as (x & Hx & Hin).
    assert (existsb (MemStore.by_id (MemStore.id row)) t = true) as Hc.
    { apply existsb_exists. exists x. split; [exact Hin|].
      now apply jsstring_eqb_eq. }
    congruence. }
  destruct q as [k|e|c f e r|i f e r a]; cbn [MemStore.client snd]; try exact Hnd.
  - unfold MemStore.rpc. destruct mode; [exact Hnd|].
    destruct (existsb (MemStore.by_id (mapped c)) t) eqn:E;
      cbn [snd]; [exact Hnd|].
    now apply Hadd.
  - unfold MemStore.insert. cbn [MemStore.id].
    destruct (existsb (MemStore.by_id i) t) eqn:E; cbn [snd]; [exact Hnd|].
    now apply Hadd.
Qed.

(** C2, as the code has it.  Against the in-memory table under its
    primary-key constraint, whichever way the database function behaves:
    the revision that creates returns the same id in two successive calls,
    the second call leaves the table as the first left it, and afterwards
    exactly one record is stored under the returned id; the skipping
    revision also returns the same id twice, and never changes the table. *)
Theorem resolve_twice_table (mode : MemStore.rpc_mode) (t : MemStore.table)
  (random : result jsstring) (c f e : jsstring) (role : option jsstring)
  (Hpk : NoDup (map MemStore.id t)) :
  let cl := MemStore.client mode in
  let first := run cl (Resolver.getOrCreateUserProfile random c f e role) t in
  let second := run cl (Resolver.getOrCreateUserProfile random c f e role) (final first) in
  let first' := run cl (Workaround.getOrCreateUserProfile random c f e role) t in
  let second' := run cl (Workaround.getOrCreateUserProfile random c f e role) (final first') in
  (exists v,
      completion first = Ok v /\ completion second = Ok v
      /\ final second = final first
      /\ MemStore.count_id v (final second) = 1%nat)
  /\ (exists v,
      completion first' = Ok v /\ completion second' = Ok v
      /\ final first' = t /\ final second' = t).
Proof.
  cbv zeta. split.
  - rewrite (run_full _ random c f e role t).
    destruct (table_lookup_run mode (mapped c) e t) as [tr Hl]. rewrite Hl.
    destruct (table_lookup (mapped c) e t) as [v|] eqn:E.
    + exists v. cbn [final completion fst snd].
      rewrite run_full, Hl. cbn [fst snd].
      repeat split; try reflexivity. now apply (table_lookup_found (mapped c) e).
    + pose proof (table_lookup_none _ _ _ Hpk E) as Hnone.
      destruct (table_create mode t c f e (Resolver.default_role role) Hnone)
        as (row & tr2 & Hrow & Hc).
      rewrite Hc. exists (mapped c). cbn [final completion fst snd].
      rewrite run_full.
      destruct (table_lookup_run mode (mapped c) e (t ++ [row])) as [tr3 Hl3].
      rewrite Hl3.
      destruct (table_lookup_created (mapped c) e t row Hnone Hrow) as [-> Hcount].
      cbn [fst snd]. repeat split; try reflexivity. exact Hcount.
  - rewrite (run_workaround _ random c f e role t).
    destruct (table_lookup_run mode (mapped c) e t) as [tr Hl]. rewrite Hl.
    destruct (table_lookup (mapped c) e t) as [v|] eqn:E.
    + exists v. cbn [final completion fst snd].
      rewrite run_workaround, Hl. cbn [fst snd]. auto.
    + exists (mapped c). cbn [final completion fst snd].
      rewrite run_workaround, Hl. cbn [fst snd]. auto.
Qed.

(** C2, witness: two calls on the empty table, the database function
    failing. *)
Lemma resolve_twice_empty_table :
  NoDup (map MemStore.id (@nil MemStore.ProfileRecord))
  /\ (let cl := MemStore.client MemStore.RpcBroken in
      let first := run cl (Resolver.getOrCreateUserProfile no_random alice alice_name alice_email None) [] in
      let second := run cl (Resolver.getOrCreateUserProfile no_random alice alice_name alice_email None) (final first) in
      let first' := run cl (Workaround.getOrCreateUserProfile no_random alice alice_name alice_email None) [] in
      let second' := run cl (Workaround.getOrCreateUserProfile no_random alice alice_name alice_email None) (final first') in
      (exists v,
          completion first = Ok v /\ completion second = Ok v
          /\ final second = final first
          /\ MemStore.count_id v (final second) = 1%nat)
      /\ (exists v,
          completion first' = Ok v /\ completion second' = Ok v
          /\ final first' = [] /\ final second' = [])).
Proof.
  assert (NoDup (map MemStore.id (@nil MemStore.ProfileRecord))) as H by constructor.
  split; [exact H|].
  exact (resolve_twice_table MemStore.RpcBroken [] no_random alice alice_name
           alice_email None H).
Defined.

(** C2, counterexample.  The skipping revision, called twice on the empty
    table, returns the mapped id both times and no record exists
    afterwards. *)
Lemma skipping_revision_stores_nothing :
  let cl := MemStore.client MemStore.RpcBroken in
  let first := run cl (Workaround.getOrCreateUserProfile no_random alice alice_name alice_email None) [] in
  let second := run cl (Workaround.getOrCreateUserProfile no_random alice alice_name alice_email None) (final first) in
  completion first = Ok (mapped alice)
  /\ completion second = Ok (mapped alice)
  /\ final second = []
  /\ MemStore.count_id (mapped alice) (final second) = 0%nat.
Proof. vm_compute. auto. Qed.

Example erroring_is_unreachable : unreachable erroring.
Proof. intros q st. cbn. repeat split. discriminate. Qed.

(* ================================================================== *)
(** * More on the validator *)
(* ================================================================== *)

Lemma match_nodes_length (i : bool) (p : list node) (s : jsstring) :
  match_nodes i p s = true -> List.length s = List.length p.
Proof.
  revert s. induction p as [|n p IH]; intros [|c s] H; cbn in *;
    try discriminate; [reflexivity|].
  apply andb_true_iff in H. destruct H as [_ H]. now rewrite (IH s H).
Qed.

Lemma in_range_iff (lo hi c : Z) : in_range lo hi c = true <-> lo <= c <= hi.
Proof. unfold in_range. rewrite andb_true_iff, !Z.leb_le. tauto. Qed.

Lemma bool_eq_iff (a b : bool) : (a = true <-> b = true) -> a = b.
Proof.
  destruct a, b; intros [H1 H2]; try reflexivity.
  - symmetry. now apply H1.
  - now apply H2.
Qed.

Ltac boolean_ranges :=
  apply bool_eq_iff;
  cbn [node_matches existsb fst snd];
  unfold unit_matches, is_hex, ascii_upper, ascii_lower;
  rewrite ?orb_false_r;
  repeat match goal with
         | |- context [if in_range ?a ?b ?c then _ else _] =>
             let E := fresh "E" in
             destruct (in_range a b c) eqn:E;
             [apply in_range_iff in E
             |apply not_true_iff_false in E; rewrite in_range_iff in E]
         end;
  cbn [andb orb];
  rewrite ?orb_true_iff, ?andb_true_iff, ?in_range_iff, ?Z.eqb_eq;
  lia.

Lemma hexClass_is_hex (c : Z) : node_matches true hexClass c = is_hex c.
Proof. unfold hexClass. boolean_ranges. Qed.

Lemma dash_is_45 (c : Z) : node_matches true dash c = (c =? 45).
Proof. unfold dash. boolean_ranges. Qed.

Lemma version_class (c : Z) :
  node_matches true (CharClass [(49, 53)]) c = in_range 49 53 c.
Proof. boolean_ranges. Qed.

Lemma variant_class (c : Z) :
  node_matches true (CharClass [(56, 56); (57, 57); (97, 97); (98, 98)]) c
  = in_range 56 57 c || in_range 97 98 c || in_range 65 66 c.
Proof. boolean_ranges. Qed.

Lemma validateUUID_positions (u : jsstring) :
  List.length u = 36%nat -> validateUUID u = positions_ok 0 u.
Proof.
  intros H.
  do 36 (destruct u as [|? u]; [discriminate H|]).
  destruct u; [|discriminate H]. clear H.
  unfold validateUUID, test.
  cbn [uuidRegex atoms ignoreCase expand repeat app match_nodes positions_ok
       position_ok].
  rewrite !hexClass_is_hex, !dash_is_45, !version_class, !variant_class.
  reflexivity.
Qed.

Lemma positions_ok_nth (u : jsstring) (k : nat) :
  positions_ok k u = true <->
  forall i c, nth_error u i = Some c -> position_ok (k + i) c = true.
Proof.
  revert k. induction u as [|x u IH]; intros k; cbn [positions_ok].
  - split; [intros _ [|i] c H; discriminate H|reflexivity].
  - rewrite andb_true_iff, IH. split.
    + intros [Hx Hu] [|i] c H; cbn in H.
      * injection H as <-. now rewrite Nat.add_0_r.
      * rewrite <- Nat.add_succ_comm. now apply Hu.
    + intros H. split.
      * rewrite <- (Nat.add_0_r k). now apply (H 0%nat).
      * intros i c Hi. rewrite Nat.add_succ_comm. now apply (H (S i)).
Qed.

(** X1. The validator accepts exactly the strings of 36 characters with a
    dash at positions 8, 13, 18 and 23, a digit 1-5 at position 14, one of
    8, 9, a, b (in either case) at position 19 and a hexadecimal digit (in
    either case) everywhere else. *)
Theorem validateUUID_accepts_exactly (u : jsstring) :
  validateUUID u = true <->
  List.length u = 36%nat
  /\ forall i c, nth_error u i = Some c -> position_ok i c = true.
Proof.
  split.
  - intros H.
    assert (List.length u = 36%nat) as Hl
      by (apply (match_nodes_length _ _ _ H)).
    split; [exact Hl|].
    rewrite (validateUUID_positions u Hl) in H.
    now apply (positions_ok_nth u 0).
  - intros [Hl H]. rewrite (validateUUID_positions u Hl).
    now apply (positions_ok_nth u 0).
Qed.

Lemma ascii_upper_upper (c : Z) : ascii_upper (ascii_upper c) = ascii_upper c.
Proof.
  unfold ascii_upper.
  destruct (in_range 97 122 c) eqn:E; [|now rewrite E].
  apply in_range_iff in E.
  destruct (in_range 97 122 (c - 32)) eqn:F; [apply in_range_iff in F; lia|reflexivity].
Qed.

Lemma ascii_lower_lower (c : Z) : ascii_lower (ascii_lower c) = ascii_lower c.
Proof.
  unfold ascii_lower.
  destruct (in_range 65 90 c) eqn:E; [|now rewrite E].
  apply in_range_iff in E.
  destruct (in_range 65 90 (c + 32)) eqn:F; [apply in_range_iff in F; lia|reflexivity].
Qed.

Lemma ascii_lower_upper (c : Z) : ascii_lower (ascii_upper c) = ascii_lower c.
Proof.
  unfold ascii_lower, ascii_upper.
  destruct (in_range 97 122 c) eqn:E.
  - apply in_range_iff in E.
    destruct (in_range 65 90 (c - 32)) eqn:F;
      [|apply not_true_iff_false in F; rewrite in_range_iff in F; lia].
    destruct (in_range 65 90 c) eqn:G; [apply in_range_iff in G; lia|lia].
  - reflexivity.
Qed.

Lemma ascii_upper_lower (c : Z) : ascii_upper (ascii_lower c) = ascii_upper c.
Proof.
  unfold ascii_lower, ascii_upper.
  destruct (in_range 65 90 c) eqn:E.
  - apply in_range_iff in E.
    destruct (in_range 97 122 (c + 32)) eqn:F;
      [|apply not_true_iff_false in F; rewrite in_range_iff in F; lia].
    destruct (in_range 97 122 c) eqn:G; [apply in_range_iff in G; lia|lia].
  - reflexivity.
Qed.

Lemma one_of_its_cases (c : Z) : c = ascii_upper c \/ c = ascii_lower c.
Proof.
  unfold ascii_upper, ascii_lower.
  destruct (in_range 97 122 c) eqn:E; [right|now left].
  apply in_range_iff in E.
  destruct (in_range 65 90 c) eqn:F; [apply in_range_iff in F; lia|reflexivity].
Qed.

Lemma unit_matches_cases (lo hi c : Z) :
  unit_matches true lo hi c
  = in_range lo hi (ascii_upper c) || in_range lo hi (ascii_lower c).
Proof.
  unfold unit_matches. cbn [andb].
  destruct (one_of_its_cases c) as [H|H]; rewrite H at 1;
    destruct (in_range lo hi (ascii_upper c)), (in_range lo hi (ascii_lower c));
    reflexivity.
Qed.

Lemma node_matches_case (f : Z -> Z) (n : node) (c : Z) :
  ascii_upper (f c) = ascii_upper c -> ascii_lower (f c) = ascii_lower c ->
  node_matches true n (f c) = node_matches true n c.
Proof.
  intros Hu Hl. destruct n as [ranges|d]; cbn [node_matches].
  - induction ranges as [|r ranges IH]; cbn [existsb]; [reflexivity|].
    now rewrite IH, !unit_matches_cases, Hu, Hl.
  - now rewrite !unit_matches_cases, Hu, Hl.
Qed.

Lemma match_nodes_map (f : Z -> Z) (p : list node) (s : jsstring) :
  (forall n c, node_matches true n (f c) = node_matches true n c) ->
  match_nodes true p (map f s) = match_nodes true p s.
Proof.
  intros Hf. revert s. induction p as [|n p IH]; intros [|c s]; cbn;
    try reflexivity.
  now rewrite Hf, IH.
Qed.

(** X2. The validator does not look at the case of letters: a string passes
    exactly when its upper-case form passes and exactly when its lower-case
    form passes. *)
Theorem validateUUID_ignores_case (u : jsstring) :
  validateUUID (map ascii_upper u) = validateUUID u
  /\ validateUUID (map ascii_lower u) = validateUUID u.
Proof.
  unfold validateUUID, test. cbn [ignoreCase uuidRegex]. split.
  - apply match_nodes_map. intros n c.
    apply node_matches_case; [apply ascii_upper_upper|apply ascii_lower_upper].
  - apply match_nodes_map. intros n c.
    apply node_matches_case; [apply ascii_upper_lower|apply ascii_lower_lower].
Qed.

(* ================================================================== *)
(** * More on the mapper *)
(* ================================================================== *)

Lemma digits_fuel_enough (n : Z) : 0 <= n -> n < 2 ^ Z.of_nat (digits_fuel n).
Proof.
  intros Hn. unfold digits_fuel.
  destruct (Z.eq_dec n 0) as [->|Hz]; [reflexivity|].
  rewrite Nat2Z.inj_succ, Z2Nat.id by apply Z.log2_nonneg.
  apply Z.log2_spec. lia.
Qed.

Lemma parse_leading_zeros (radix : Z) (z s : jsstring) :
  Forall (fun c => digit_value c = 0) z ->
  parse_digits radix (z ++ s) 0 = parse_digits radix s 0.
Proof.
  induction 1 as [|c z Hc Hz IH]; [reflexivity|].
  unfold parse_digits in *. cbn [app fold_left]. rewrite Hc.
  replace (0 * radix + 0) with 0 by lia. exact IH.
Qed.

Lemma parse_padStart_zero (radix : Z) (s : jsstring) (n : nat) :
  parse_digits radix (padStart s n (str "0")) 0 = parse_digits radix s 0.
Proof.
  unfold padStart. destruct (n <=? List.length s)%nat; [reflexivity|].
  change (str "0") with [48]. apply parse_leading_zeros.
  apply fill_Forall; repeat constructor.
Qed.

Lemma parse_hex8 (userId : jsstring) :
  parse_digits 16 (hex8 userId) 0 = Z.abs (hash_loop (userId ++ NAMESPACE_UUID) 0).
Proof.
  unfold hex8. rewrite parse_padStart_zero, digits_parse; [reflexivity|lia|].
  split; [apply Z.abs_nonneg|apply digits_fuel_enough, Z.abs_nonneg].
Qed.

Lemma first_group (userId : jsstring) : firstn 8 (mapped userId) = hex8 userId.
Proof.
  rewrite mapped_closed. destruct (hex8_shape userId) as [Hl _].
  destruct (length_8 _ Hl) as (c0 & c1 & c2 & c3 & c4 & c5 & c6 & c7 & ->).
  reflexivity.
Qed.

(** X3. The identifier is its first group spread out: the template applied
    to the first eight characters gives the whole identifier back, and those
    eight characters, read as a hexadecimal number, are the absolute value of
    the 32-bit hash, a number between 0 and 2^31. *)
Theorem identifier_encodes_hash (randomUUID : result jsstring) (s : jsstring) :
  exists uuid,
    generateConsistentUUID randomUUID s = Ok uuid
    /\ uuid = uuid_template (firstn 8 uuid)
    /\ parse_digits 16 (firstn 8 uuid) 0
       = Z.abs (hash_loop (s ++ NAMESPACE_UUID) 0)
    /\ 0 <= parse_digits 16 (firstn 8 uuid) 0 <= 2 ^ 31.
Proof.
  exists (mapped s). split; [apply mapper_value|].
  rewrite first_group, parse_hex8. split; [apply mapped_closed|].
  split; [reflexivity|].
  pose proof (hash_loop_range (s ++ NAMESPACE_UUID) 0 ltac:(lia)) as H.
  revert H. generalize (hash_loop (s ++ NAMESPACE_UUID) 0).
  change (2 ^ 31) with 2147483648. lia.
Qed.

Lemma same_identifier_iff (randomUUID : result jsstring) (s1 s2 : jsstring) :
  generateConsistentUUID randomUUID s1 = generateConsistentUUID randomUUID s2
  <-> Z.abs (hash_loop (s1 ++ NAMESPACE_UUID) 0)
      = Z.abs (hash_loop (s2 ++ NAMESPACE_UUID) 0).
Proof.
  rewrite !mapper_value. split.
  - intros [= H]. rewrite <- !parse_hex8, <- !first_group. now rewrite H.
  - intros H. rewrite !mapped_closed. unfold hex8. now rewrite H.
Qed.

(** X4. Two external ids get the same identifier exactly when their 32-bit
    hashes have the same absolute value. *)
Theorem collision_iff_same_absolute_hash (randomUUID : result jsstring)
  (s1 s2 : jsstring) :
  generateConsistentUUID randomUUID s1 = generateConsistentUUID randomUUID s2
  <-> Z.abs (hash_loop (s1 ++ NAMESPACE_UUID) 0)
      = Z.abs (hash_loop (s2 ++ NAMESPACE_UUID) 0).
Proof. apply same_identifier_iff. Qed.

(** X5. The namespace constant does not separate external ids whose own
    hashes collide: if the loop gives two ids the same value, then the two
    ids, and any two ids made from them by appending the same text, get the
    same identifier. *)
Theorem collisions_extend (s1 s2 : jsstring)
  (Hsame : hash_loop s1 0 = hash_loop s2 0) :
  forall (t : jsstring) (randomUUID : result jsstring),
    generateConsistentUUID randomUUID (s1 ++ t)
    = generateConsistentUUID randomUUID (s2 ++ t).
Proof.
  intros t r. apply same_identifier_iff.
  now rewrite <- !app_assoc, !(hash_loop_app _ (t ++ NAMESPACE_UUID)), Hsame.
Qed.

(** X5, witness. *)
Lemma collisions_extend_Aa_BB :
  hash_loop (str "Aa") 0 = hash_loop (str "BB") 0
  /\ generateConsistentUUID no_random (str "Aa" ++ str "-2024")
     = generateConsistentUUID no_random (str "BB" ++ str "-2024").
Proof.
  assert (hash_loop (str "Aa") 0 = hash_loop (str "BB") 0) as H
    by (vm_compute; reflexivity).
  split; [exact H|].
  exact (collisions_extend (str "Aa") (str "BB") H (str "-2024") no_random).
Defined.

(** X6. At every turn of the loop over a string of UTF-16 code units the
    accumulator is a 32-bit signed integer, and the numbers the body forms
    from it are integers below 2^53 in magnitude, so that the
    double-precision arithmetic of the source computes them exactly. *)
Theorem loop_arithmetic_exact (before : jsstring) (char : Z)
  (Hchar : code_unit char) :
  let hash := hash_loop before 0 in
  - 2 ^ 31 <= hash < 2 ^ 31
  /\ Z.abs (shl hash 5) < 2 ^ 53
  /\ Z.abs (shl hash 5 - hash) < 2 ^ 53
  /\ Z.abs (shl hash 5 - hash + char) < 2 ^ 53
  /\ - 2 ^ 31 <= hash_loop (before ++ [char]) 0 < 2 ^ 31.
Proof.
  cbv zeta.
  pose proof (hash_loop_range before 0 ltac:(lia)) as Hr.
  split; [exact Hr|].
  destruct (hash_step_exact _ _ Hr Hchar) as (H1 & H2 & H3).
  repeat split; try assumption; apply hash_loop_range; lia.
Qed.

(** X6, witness. *)
Lemma loop_arithmetic_exact_user :
  code_unit 51
  /\ Z.abs (shl (hash_loop (str "user-12") 0) 5
            - hash_loop (str "user-12") 0 + 51) < 2 ^ 53.
Proof.
  assert (code_unit 51) as H by (unfold code_unit; lia).
  split; [exact H|].
  exact (proj1 (proj2 (proj2 (proj2 (loop_arithmetic_exact (str "user-12") 51 H))))).
Defined.

(* ================================================================== *)
(** * More on the resolver *)
(* ================================================================== *)

Section Requests.
Context {St : Type}.
Variable client : query -> St -> settled * St.

Lemma lookup_shape (id e : jsstring) (st : St) :
  exists fl st1 tr1,
    run client (Resolver.lookup_existing id e) st = (Ok fl, st1, tr1)
    /\ (map fst tr1 = [SelectIdById id]
        \/ map fst tr1 = [SelectIdById id; SelectIdByEmail e]).
Proof.
  unfold Resolver.lookup_existing, await. cbn [bind try_catch run].
  destruct (client (SelectIdById id) st) as [[[[v1|] er1]|x1] st1];
    cbn [bind try_catch run data].
  - do 3 eexists. split; [reflexivity|]. now left.
  - destruct (client (SelectIdByEmail e) st1) as [[[[v2|] er2]|x2] st2];
      cbn [bind try_catch run data];
      do 3 eexists; (split; [reflexivity|]); now right.
  - do 3 eexists. split; [reflexivity|]. now left.
Qed.

Lemma create_shape (cand c f e r : jsstring) (st : St) :
  exists w st2 tr2,
    run client (Resolver.create_profile cand c f e r) st = (Ok w, st2, tr2)
    /\ ((exists s, tr2 = [(Rpc_get_or_create_user_profile c f e r, s)])
        \/ (exists resp er s',
               tr2 = [ (Rpc_get_or_create_user_profile c f e r, Fulfilled resp);
                       (InsertProfile cand f e r (str "clerk"), s') ]
               /\ error resp = Some er)).
Proof.
  unfold Resolver.create_profile, Resolver.direct_insert, await.
  cbn [bind try_catch run].
  destruct (client (Rpc_get_or_create_user_profile c f e r) st)
    as [[[[v1|] [er1|]]|x1] st1]; cbn [bind try_catch run data error].
  - destruct (client (InsertProfile cand f e r (str "clerk")) st1)
      as [[[[v2|] [er2|]]|x2] st2]; cbn [bind try_catch run data error];
      do 3 eexists; (split; [reflexivity|]); right; do 3 eexists;
      (split; [reflexivity|]); reflexivity.
  - destruct (truthy v1); cbn [run];
      do 3 eexists; (split; [reflexivity|]); left; eexists; reflexivity.
  - destruct (client (InsertProfile cand f e r (str "clerk")) st1)
      as [[[[v2|] [er2|]]|x2] st2]; cbn [bind try_catch run data error];
      do 3 eexists; (split; [reflexivity|]); right; do 3 eexists;
      (split; [reflexivity|]); reflexivity.
  - do 3 eexists. split; [reflexivity|]. left. eexists. reflexivity.
  - do 3 eexists. split; [reflexivity|]. left. eexists. reflexivity.
Qed.

End Requests.

(** X7. When the lookup by primary key resolves with a row, both revisions
    return the id of that row at once: the lookup by email is not made and
    nothing is created. *)
Theorem primary_key_hit_short_circuits {St : Type}
  (client : query -> St -> settled * St)
  (random : result jsstring) (c f e : jsstring) (role : option jsstring)
  (st st1 : St) (r1 : response) (existingProfile_id : jsstring)
  (Hid : client (SelectIdById (mapped c)) st = (Fulfilled r1, st1))
  (Hfound : data r1 = Some existingProfile_id) :
  run client (Resolver.getOrCreateUserProfile random c f e role) st
  = (Ok existingProfile_id, st1, [(SelectIdById (mapped c), Fulfilled r1)])
  /\ run client (Workaround.getOrCreateUserProfile random c f e role) st
     = (Ok existingProfile_id, st1, [(SelectIdById (mapped c), Fulfilled r1)]).
Proof.
  assert (run client (Resolver.lookup_existing (mapped c) e) st
          = (Ok (Returned existingProfile_id), st1,
             [(SelectIdById (mapped c), Fulfilled r1)])) as Hl.
  { unfold Resolver.lookup_existing, await. cbn [bind try_catch run].
    rewrite Hid. cbn [bind try_catch run]. rewrite Hfound. reflexivity. }
  rewrite run_full, run_workaround, Hl. auto.
Qed.

(** X7, witness: the table that holds the record under the mapped id. *)
Lemma primary_key_hit_alice :
  run (MemStore.client MemStore.RpcBroken)
    (Resolver.getOrCreateUserProfile no_random alice alice_name alice_email None)
    alice_table
  = (Ok (mapped alice), alice_table,
     [ (SelectIdById (mapped alice),
        Fulfilled {| data := Some (mapped alice); error := None |}) ]).
Proof.
  refine (proj1 (primary_key_hit_short_circuits
                   (MemStore.client MemStore.RpcBroken)
                   no_random alice alice_name alice_email None
                   alice_table alice_table
                   {| data := Some (mapped alice); error := None |}
                   (mapped alice) _ _)); vm_compute; reflexivity.
Defined.

(** X8. When the lookup by primary key is rejected, the lookup by email is
    skipped, because both sit in one [try] block: the skipping revision
    returns the mapped id after that single request, and the other revision
    goes straight on to creation, whatever the table holds under the
    email. *)
Theorem rejected_lookup_skips_email {St : Type}
  (client : query -> St -> settled * St)
  (random : result jsstring) (c f e : jsstring) (role : option jsstring)
  (st st1 : St) (x : exn)
  (Hid : client (SelectIdById (mapped c)) st = (Rejected x, st1)) :
  run client (Workaround.getOrCreateUserProfile random c f e role) st
  = (Ok (mapped c), st1, [(SelectIdById (mapped c), Rejected x)])
  /\ (exists w st2 tr2,
         run client (Resolver.getOrCreateUserProfile random c f e role) st
         = (Ok w, st2, (SelectIdById (mapped c), Rejected x) :: tr2)
         /\ Forall (fun ev => is_creation (fst ev) = true) tr2).
Proof.
  assert (run client (Resolver.lookup_existing (mapped c) e) st
          = (Ok Normal, st1, [(SelectIdById (mapped c), Rejected x)])) as Hl.
  { unfold Resolver.lookup_existing, await. cbn [bind try_catch run].
    rewrite Hid. reflexivity. }
  rewrite run_full, run_workaround, Hl. split; [reflexivity|].
  destruct (create_total client (mapped c) c f e (Resolver.default_role role) st1)
    as (w & st2 & tr2 & -> & Hcr & _).
  exists w, st2, tr2. split; [reflexivity|exact Hcr].
Qed.

(** X8, witness: the record that a lookup by email would find is not
    found. *)
Lemma rejected_lookup_skips_email_flaky :
  fst (flaky (SelectIdByEmail alice_email) tt)
  = Fulfilled {| data := Some uuid_v7; error := None |}
  /\ run flaky
       (Workaround.getOrCreateUserProfile no_random alice alice_name alice_email None) tt
     = (Ok (mapped alice), tt, [(SelectIdById (mapped alice), Rejected FetchError)]).
Proof.
  split; [reflexivity|].
  exact (proj1 (rejected_lookup_skips_email flaky no_random alice alice_name
                  alice_email None tt tt FetchError eq_refl)).
Defined.

(** X9. The skipping revision only reads: whatever the backend does, it
    makes the lookup by primary key, possibly the lookup by email, and no
    other request. *)
Theorem skipping_revision_only_reads {St : Type}
  (client : query -> St -> settled * St)
  (random : result jsstring) (c f e : jsstring) (role : option jsstring) (st : St) :
  let made :=
    requests (run client (Workaround.getOrCreateUserProfile random c f e role) st) in
  made = [SelectIdById (mapped c)]
  \/ made = [SelectIdById (mapped c); SelectIdByEmail e].
Proof.
  cbv zeta. rewrite run_workaround.
  destruct (lookup_shape client (mapped c) e st) as (fl & st1 & tr1 & -> & H).
  destruct fl; exact H.
Qed.

(** X10. The requests of the revision that creates, whatever the backend
    does: one or two lookups, then at most one call of the database function
    with the external id and the attributes (role 'student' when none is
    given), then at most one direct insert.  The insert is made only after
    the database function resolved with an error; it is keyed by the mapped
    id and carries the same attributes and the provider 'clerk'. *)
Theorem creation_requests_shape {St : Type}
  (client : query -> St -> settled * St)
  (random : result jsstring) (c f e : jsstring) (role : option jsstring) (st : St) :
  let role' := match role with Some r => r | None => str "student" end in
  let rpcq := Rpc_get_or_create_user_profile c f e role' in
  let insq := InsertProfile (mapped c) f e role' (str "clerk") in
  exists look create,
    snd (run client (Resolver.getOrCreateUserProfile random c f e role) st)
    = look ++ create
    /\ (map fst look = [SelectIdById (mapped c)]
        \/ map fst look = [SelectIdById (mapped c); SelectIdByEmail e])
    /\ (create = []
        \/ (exists s, create = [(rpcq, s)])
        \/ (exists resp er s',
               create = [(rpcq, Fulfilled resp); (insq, s')]
               /\ error resp = Some er)).
Proof.
  cbv zeta. rewrite run_full.
  destruct (lookup_shape client (mapped c) e st) as (fl & st1 & tr1 & -> & H).
  destruct fl as [v|].
  - exists tr1, []. cbn [snd]. rewrite app_nil_r. auto.
  - destruct (create_shape client (mapped c) c f e (Resolver.default_role role) st1)
      as (w & st2 & tr2 & -> & Hc).
    exists tr1, tr2. cbn [snd]. split; [reflexivity|]. split; [exact H|].
    right. exact Hc.
Qed.

(* ================================================================== *)
(** * useSubscription: the plan checks *)
(* ================================================================== *)

Section PlanChecks.
Import SubscriptionHook.
Variable Date_parse : jsstring -> option Z.

(** X11. The three checks agree with one another: the pro check is the
    check for plan 'pro' or plan 'enterprise', the check for a plan is the
    check for any plan together with the plan type of the stored row, and so
    whatever passes the pro check or a plan check passes the check for any
    plan. *)
Theorem plan_checks_agree (subscription : option Subscription) (now : Z) :
  hasProPlan Date_parse subscription now
  = hasActivePlan Date_parse subscription now (str "pro")
    || hasActivePlan Date_parse subscription now (str "enterprise")
  /\ (forall planType,
         hasActivePlan Date_parse subscription now planType
         = hasAnyActivePlan Date_parse subscription now
           && match subscription with
              | Some row => jsstring_eqb (plan_type row) planType
              | None => false
              end)
  /\ (hasProPlan Date_parse subscription now = true ->
      hasAnyActivePlan Date_parse subscription now = true).
Proof.
  unfold hasProPlan, hasActivePlan, hasAnyActivePlan.
  destruct subscription as [row|]; cbv zeta; [|auto].
  destruct (jsstring_eqb (status row) (str "active"));
    destruct (later_than_now Date_parse (current_period_end row) now);
    cbn [andb orb]; repeat split; intros; try reflexivity; try assumption.
Qed.

(** X12. At most one plan is active at a time: if the check passes for two
    plan types, they are the same. *)
Theorem one_active_plan (subscription : option Subscription) (now : Z)
  (p q : jsstring)
  (Hp : hasActivePlan Date_parse subscription now p = true)
  (Hq : hasActivePlan Date_parse subscription now q = true) :
  p = q.
Proof.
  destruct subscription as [row|]; [|discriminate Hp].
  cbn in Hp, Hq. apply andb_true_iff in Hp, Hq.
  destruct Hp as [_ Hp], Hq as [_ Hq].
  apply jsstring_eqb_eq in Hp, Hq. congruence.
Qed.

(** X13. A period that has ended, or whose end cannot be read as a date,
    passes no check: from the end of the period on (the end itself
    included) all three checks fail. *)
Theorem ended_period_passes_no_check (row : Subscription) (now : Z)
  (Hend : match Date_parse (current_period_end row) with
          | Some t => t <= now
          | None => True
          end) :
  hasAnyActivePlan Date_parse (Some row) now = false
  /\ hasProPlan Date_parse (Some row) now = false
  /\ forall planType, hasActivePlan Date_parse (Some row) now planType = false.
Proof.
  assert (later_than_now Date_parse (current_period_end row) now = false) as H.
  { unfold later_than_now.
    destruct (Date_parse (current_period_end row)) as [t|]; [|reflexivity].
    apply Z.ltb_ge. exact Hend. }
  unfold hasProPlan, hasActivePlan, hasAnyActivePlan. cbv zeta.
  rewrite H, !andb_false_r. cbn [andb]. auto.
Qed.

(** X14. A subscription that passes a check at some time passes it at every
    earlier time: checks only ever turn from true to false as time goes
    on. *)
Theorem checks_hold_earlier (subscription : option Subscription)
  (now earlier : Z) (Hle : earlier <= now) :
  (hasAnyActivePlan Date_parse subscription now = true ->
   hasAnyActivePlan Date_parse subscription earlier = true)
  /\ (hasProPlan Date_parse subscription now = true ->
      hasProPlan Date_parse subscription earlier = true)
  /\ (forall planType,
         hasActivePlan Date_parse subscription now planType = true ->
         hasActivePlan Date_parse subscription earlier planType = true).
Proof.
  unfold hasProPlan, hasActivePlan, hasAnyActivePlan.
  destruct subscription as [row|]; cbv zeta; [|auto].
  assert (later_than_now Date_parse (current_period_end row) now = true ->
          later_than_now Date_parse (current_period_end row) earlier = true) as H.
  { unfold later_than_now.
    destruct (Date_parse (current_period_end row)) as [t|]; [|discriminate].
    rewrite !Z.ltb_lt. lia. }
  destruct (jsstring_eqb (status row) (str "active")); cbn [andb];
    [|repeat split; intros; assumption].
  destruct (later_than_now Date_parse (current_period_end row) now);
    cbn [andb]; [|repeat split; intros; discriminate].
  rewrite (H eq_refl). cbn [andb]. auto.
Qed.

End PlanChecks.

(** X12, witness. *)
Lemma one_active_plan_pro :
  SubscriptionHook.hasActivePlan parse_1000 (Some pro_row) 999 (str "pro") = true
  /\ str "pro" = str "pro".
Proof.
  assert (SubscriptionHook.hasActivePlan parse_1000 (Some pro_row) 999 (str "pro")
          = true) as H by (vm_compute; reflexivity).
  split; [exact H|].
  exact (one_active_plan parse_1000 (Some pro_row) 999 (str "pro") (str "pro") H H).
Defined.

(** X13, witness: at time 1000 the period of [pro_row] has just ended. *)
Lemma ended_period_at_the_end :
  SubscriptionHook.hasAnyActivePlan parse_1000 (Some pro_row) 999 = true
  /\ SubscriptionHook.hasAnyActivePlan parse_1000 (Some pro_row) 1000 = false.
Proof.
  split; [vm_compute; reflexivity|].
  refine (proj1 (ended_period_passes_no_check parse_1000 pro_row 1000 _)).
  vm_compute. discriminate.
Defined.

(** X14, witness. *)
Lemma checks_hold_earlier_pro :
  SubscriptionHook.hasProPlan parse_1000 (Some pro_row) 10 = true.
Proof.
  refine (proj1 (proj2 (checks_hold_earlier parse_1000 (Some pro_row) 999 10 _)) _).
  - lia.
  - vm_compute. reflexivity.
Defined.

(* ================================================================== *)
(** * useSubscription: fetching *)
(* ================================================================== *)

Section FetchSubscription.
Import Async SubscriptionHook.
Variable W : Type.
Variable backend : forall X, query X -> W -> Async.settled X * W.
Variable env : forall X, nocall X -> W -> X * W.
Variable Date_parse : jsstring -> option Z.

Ltac fetch_cases id w :=
  unfold fetchSubscription, setSubscription, setLoading, setTimeout, modify, await;
  cbn [Async.bind Async.try_catch Async.run];
  let w1 := fresh "w1" in
  destruct (backend _ (SelectActive id) w) as [[[[[|sub rows]|] [er|]]|x] w1];
  cbn [Async.bind Async.try_catch Async.run Async.data Async.error no_rows
       andb fst snd];
  try match goal with
      | |- context [?rc =? 0] => destruct (rc =? 0) eqn:?
      end;
  cbn [Async.bind Async.try_catch Async.run];
  try match goal with
      | |- context [backend _ (SelectLatest id) ?w1] =>
          let w2 := fresh "w2" in
          destruct (backend _ (SelectLatest id) w1) as [[resp2|x2] w2]
      end;
  cbn [Async.bind Async.try_catch Async.run Async.completion Async.written
       Async.asked Async.world fst snd subscription loading timers].

(** X15. [fetchSubscription] never rejects, always ends with [loading]
    false, and stores exactly the first row that the query for active
    subscriptions resolved with, when that query resolved without error and
    with a row; in every other case (no row, an error, a rejected request)
    it stores [null]. *)
Theorem fetch_outcome (supabaseUserId : jsstring) (retryCount : option Z)
  (w : W) (s : state) :
  let r := Async.run backend env (fetchSubscription supabaseUserId retryCount) w s in
  Async.completion r = Ok tt
  /\ loading (Async.written r) = false
  /\ subscription (Async.written r)
     = match fst (backend _ (SelectActive supabaseUserId) w) with
       | Async.Fulfilled {| Async.data := Some (sub :: _); Async.error := None |} =>
           Some sub
       | _ => None
       end.
Proof.
  cbv zeta. fetch_cases supabaseUserId w; auto.
Qed.

(** X16. [fetchSubscription] sets at most one timer, and only on the first
    attempt: exactly when the query for active subscriptions resolved
    without error and without a row and the follow-up query was not
    rejected, it schedules the second attempt after 2000 ms.  The second
    attempt never sets a timer, so a fetch is retried at most once. *)
Theorem retried_at_most_once (supabaseUserId : jsstring) (w : W) (s : state) :
  timers (Async.written
            (Async.run backend env (fetchSubscription supabaseUserId None) w s))
  = timers s
    ++ match backend _ (SelectActive supabaseUserId) w with
       | (Async.Fulfilled {| Async.data := Some (_ :: _) |}, _) => []
       | (Async.Fulfilled {| Async.error := Some _ |}, _) => []
       | (Async.Fulfilled _, w1) =>
           match fst (backend _ (SelectLatest supabaseUserId) w1) with
           | Async.Fulfilled _ => [(FetchSubscription supabaseUserId 1, 2000)]
           | Async.Rejected _ => []
           end
       | (Async.Rejected _, _) => []
       end
  /\ forall w' s',
      timers (Async.written
                (Async.run backend env (fire (FetchSubscription supabaseUserId 1)) w' s'))
      = timers s'.
Proof.
  split.
  - fetch_cases supabaseUserId w; rewrite ?app_nil_r; try reflexivity;
      try discriminate.
  - intros w' s'. unfold fire, fetchSubscription.
    change (1 =? 0) with false. fetch_cases supabaseUserId w'; reflexivity.
Qed.

(** X17. [fetchSubscription] only reads, at most twice: first the query for
    active subscriptions; then, only on the first attempt and only when that
    query brought no row, the query for the latest subscription of any
    status. *)
Theorem fetch_requests (supabaseUserId : jsstring) (retryCount : option Z)
  (w : W) (s : state) :
  Async.asked (Async.run backend env (fetchSubscription supabaseUserId retryCount) w s)
  = Asked _ (SelectActive supabaseUserId)
    :: match fst (backend _ (SelectActive supabaseUserId) w) with
       | Async.Fulfilled {| Async.data := Some (_ :: _) |} => []
       | Async.Fulfilled _ =>
           if match retryCount with Some n => n | None => 0 end =? 0
           then [Asked _ (SelectLatest supabaseUserId)]
           else []
       | Async.Rejected _ => []
       end.
Proof.
  fetch_cases supabaseUserId w; reflexivity.
Qed.

(** X27. [refetch] does nothing at all when the auth context gives no id or
    an empty one.  With an id it never rejects, starts with the query for
    active subscriptions and, having set [loading], always ends with
    [loading] false. *)
Theorem refetch_outcome (getSupabaseUserId : option jsstring) (w : W) (s : state) :
  let r := Async.run backend env (refetch getSupabaseUserId) w s in
  Async.completion r = Ok tt
  /\ match usable getSupabaseUserId with
     | None => Async.written r = s /\ Async.asked r = [] /\ Async.world r = w
     | Some supabaseUserId =>
         loading (Async.written r) = false
         /\ hd_error (Async.asked r) = Some (Asked _ (SelectActive supabaseUserId))
     end.
Proof.
  cbv zeta. unfold refetch.
  destruct (usable getSupabaseUserId) as [supabaseUserId|]; [|cbn; auto].
  unfold setLoading at 1. unfold modify. cbn [Async.bind Async.run].
  fetch_cases supabaseUserId w; auto.
Qed.

(** X18. A realtime INSERT or UPDATE that carries an active row whose period
    has not ended is visible at once: the callback stores the row and clears
    [loading] without asking the backend, and the check for any active plan
    passes on the stored state. *)
Theorem realtime_activation_visible (supabaseUserId : jsstring) (p : payload)
  (t now : Z) (w : W) (s : state)
  (Hevent : eventType p = str "INSERT" \/ eventType p = str "UPDATE")
  (Hstatus : status (new p) = str "active")
  (Hend : Date_parse (current_period_end (new p)) = Some t)
  (Hnow : now < t) :
  let r := Async.run backend env (on_change supabaseUserId p) w s in
  Async.asked r = []
  /\ Async.completion r = Ok tt
  /\ subscription (Async.written r) = Some (new p)
  /\ loading (Async.written r) = false
  /\ hasAnyActivePlan Date_parse (subscription (Async.written r)) now = true.
Proof.
  cbv zeta. unfold on_change.
  assert (jsstring_eqb (eventType p) (str "INSERT")
          || jsstring_eqb (eventType p) (str "UPDATE") = true) as ->.
  { apply orb_true_iff.
    destruct Hevent as [H|H]; [left|right]; now apply jsstring_eqb_eq. }
  assert (jsstring_eqb (status (new p)) (str "active") = true) as Ha
    by now apply jsstring_eqb_eq.
  rewrite Ha.
  unfold setSubscription, setLoading, modify.
  cbn [Async.bind Async.run Async.asked Async.completion Async.written
       fst snd subscription loading].
  repeat split.
  unfold hasAnyActivePlan, later_than_now. rewrite Ha, Hend. cbn [andb].
  now apply Z.ltb_lt.
Qed.

(** X19. The realtime callback never rejects.  It stores a row without
    asking the backend only when the status of the row is 'active'; for a
    row of another status, or a DELETE, it asks the backend, and an event of
    an unknown type changes nothing. *)
Theorem realtime_callback_outcome (supabaseUserId : jsstring) (p : payload)
  (w : W) (s : state) :
  let r := Async.run backend env (on_change supabaseUserId p) w s in
  Async.completion r = Ok tt
  /\ (Async.asked r = [] ->
      Async.written r = s
      \/ (status (new p) = str "active"
          /\ Async.written r = {| subscription := Some (new p); loading := false;
                                  timers := timers s |}))
  /\ (jsstring_eqb (eventType p) (str "INSERT")
      || jsstring_eqb (eventType p) (str "UPDATE")
      || jsstring_eqb (eventType p) (str "DELETE") = false ->
      Async.written r = s /\ Async.asked r = []).
Proof.
  cbv zeta. unfold on_change.
  destruct (jsstring_eqb (eventType p) (str "INSERT")
            || jsstring_eqb (eventType p) (str "UPDATE")) eqn:Eiu.
  - destruct (jsstring_eqb (status (new p)) (str "active")) eqn:Ea.
    + apply jsstring_eqb_eq in Ea.
      unfold setSubscription, setLoading, modify.
      cbn [Async.bind Async.run Async.asked Async.completion Async.written
           fst snd subscription loading timers orb].
      split; [reflexivity|].
      split; [intros _; right; split; [exact Ea|reflexivity]|discriminate].
    + cbn [orb]. fetch_cases supabaseUserId w;
        (split; [reflexivity|]); (split; [discriminate|discriminate]).
  - cbn [orb].
    destruct (jsstring_eqb (eventType p) (str "DELETE")) eqn:Ed.
    + fetch_cases supabaseUserId w;
        (split; [reflexivity|]); (split; [discriminate|discriminate]).
    + cbn. auto.
Qed.

End FetchSubscription.

(** X18, witness: an UPDATE carrying [pro_row], seen at time 999. *)
Lemma realtime_activation_visible_pro :
  SubscriptionHook.hasAnyActivePlan parse_1000
    (SubscriptionHook.subscription
       (Async.written
          (Async.run no_subscription no_calls
             (SubscriptionHook.on_change (mapped alice)
                {| SubscriptionHook.eventType := str "UPDATE";
                   SubscriptionHook.new := pro_row |}) tt blank)))
    999 = true.
Proof.
  refine (proj2 (proj2 (proj2 (proj2
            (realtime_activation_visible unit no_subscription no_calls parse_1000
               (mapped alice)
               {| SubscriptionHook.eventType := str "UPDATE";
                  SubscriptionHook.new := pro_row |}
               1000 999 tt blank _ _ _ _))))).
  - right. reflexivity.
  - reflexivity.
  - vm_compute. reflexivity.
  - lia.
Defined.

(* ================================================================== *)
(** * useInterviewUsage *)
(* ================================================================== *)

(** Adding is exact as long as the sum is at most 2^53 in magnitude. *)
Lemma add_number_exact (a b : Z) :
  Z.abs (a + b) <= 2 ^ 53 -> add_number a b = a + b.
Proof.
  unfold add_number, round_to_double. generalize (a + b). intros x Hx.
  cbv zeta. destruct (Z.abs x <? 2 ^ 53) eqn:E; [reflexivity|].
  apply Z.ltb_ge in E.
  assert (x = 9007199254740992 \/ x = - 9007199254740992) as [-> | ->]
    by (change (2 ^ 53) with 9007199254740992 in *; lia);
    vm_compute; reflexivity.
Qed.

(** From 2^53 on it is not: the count stays where it is, or moves by two. *)
Example add_number_beyond_2_53 :
  add_number (2 ^ 53 - 1) 1 = 2 ^ 53
  /\ add_number (2 ^ 53) 1 = 2 ^ 53
  /\ add_number (2 ^ 53 + 2) 1 = 2 ^ 53 + 4
  /\ add_number (2 ^ 54) 1 = 2 ^ 54.
Proof. vm_compute. repeat split. Qed.

Section InterviewUsage.
Import Async InterviewUsageHook.
Variable W : Type.
Variable backend : forall X, query X -> W -> Async.settled X * W.
Variable env : forall X, syscall X -> W -> X * W.

Ltac usage_step :=
  cbn [Async.bind Async.try_catch Async.try_finally Async.run Async.data
       Async.error Async.completion Async.written Async.asked Async.world
       fst snd usage loading negb error_code];
  match goal with
  | |- context [env ?X ?c ?w] =>
      is_var w;
      let w' := fresh "w" in
      destruct (env X c w) as [? w']
  | |- context [backend ?X ?q ?w] =>
      is_var w;
      let w' := fresh "w" in
      destruct (backend X q w) as [[[[?|] [[?]|]]|?] w'] eqn:?
  | |- context [jsstring_eqb ?a ?b] =>
      destruct (jsstring_eqb a b)
  end.

Ltac usage_cases :=
  unfold fetchUsage, markFreeInterviewUsed, ensureProfileExists,
    setUsage, setLoading, modify, await, call;
  repeat usage_step;
  cbn [Async.bind Async.try_catch Async.try_finally Async.run Async.data
       Async.error Async.completion Async.written Async.asked Async.world
       fst snd usage loading negb error_code].

(** X20. [ensureProfileExists] never rejects and writes no state.  A
    profile row on the first lookup gives [true] at once.  A lookup that
    resolves without a row (with or without an error) is followed by a wait
    of 1000 ms and one more lookup, whose row decides.  A rejected first
    lookup gives [false] at once, without the wait and the second
    lookup. *)
Theorem ensureProfileExists_outcome (supabaseUserId : jsstring) (w : W) (s : state) :
  let r := Async.run backend env (ensureProfileExists supabaseUserId) w s in
  let lookup := Asked _ (SelectProfileId supabaseUserId) in
  Async.written r = s
  /\ match backend _ (SelectProfileId supabaseUserId) w with
     | (Async.Fulfilled {| Async.data := Some _ |}, _) =>
         Async.completion r = Ok true /\ Async.asked r = [lookup]
     | (Async.Fulfilled {| Async.data := None |}, w1) =>
         Async.asked r = [lookup; Called _ (Sleep 1000); lookup]
         /\ match fst (backend _ (SelectProfileId supabaseUserId)
                         (snd (env _ (Sleep 1000) w1))) with
            | Async.Fulfilled {| Async.data := Some _ |} =>
                Async.completion r = Ok true
            | _ => Async.completion r = Ok false
            end
     | (Async.Rejected _, _) =>
         Async.completion r = Ok false /\ Async.asked r = [lookup]
     end.
Proof.
  cbv zeta. usage_cases; auto.
Qed.

(** X21. [fetchUsage] never rejects and always ends with [loading] false,
    whoever calls it and whatever the backend does. *)
Theorem fetchUsage_settles (isAuthenticated : bool)
  (getSupabaseUserId : option jsstring) (w : W) (s : state) :
  let r := Async.run backend env (fetchUsage isAuthenticated getSupabaseUserId) w s in
  Async.completion r = Ok tt /\ loading (Async.written r) = false.
Proof.
  cbv zeta. unfold fetchUsage.
  destruct (if isAuthenticated then usable getSupabaseUserId else None);
    usage_cases; auto.
Qed.

(** X22. What [fetchUsage] asks, for a caller that is authenticated with a
    non-empty id: first what [ensureProfileExists] asks; then, only when
    that gave [true], the usage row; then, only when that request resolved
    with error code PGRST116, the insert of a fresh row (free interview not
    used, count 0).  It never updates a row.  For any other caller it asks
    nothing and sets the usage to [null]. *)
Theorem fetchUsage_requests (isAuthenticated : bool)
  (getSupabaseUserId : option jsstring) (w : W) (s : state) :
  let r := Async.run backend env (fetchUsage isAuthenticated getSupabaseUserId) w s in
  match (if isAuthenticated then usable getSupabaseUserId else None) with
  | None => Async.asked r = [] /\ usage (Async.written r) = None
  | Some supabaseUserId =>
      let check := Async.run backend env (ensureProfileExists supabaseUserId) w s in
      Async.asked r
      = Async.asked check
        ++ match Async.completion check with
           | Ok true =>
               Asked _ (SelectUsage supabaseUserId)
               :: match fst (backend _ (SelectUsage supabaseUserId)
                               (Async.world check)) with
                  | Async.Fulfilled {| Async.error := Some e |} =>
                      if jsstring_eqb (error_code e) (str "PGRST116")
                      then [Asked _ (InsertUsage supabaseUserId false 0)]
                      else []
                  | _ => []
                  end
           | _ => []
           end
  end.
Proof.
  cbv zeta. unfold fetchUsage.
  destruct (if isAuthenticated then usable getSupabaseUserId else None);
    usage_cases; auto.
Qed.


(** X24. [markFreeInterviewUsed] never rejects.  Without an id, with an
    empty id or without a usage record it asks nothing and changes nothing.
    Otherwise it reads the clock and sends one update that sets the flag,
    carries the count it closed over plus one, as double-precision addition
    gives it, and carries the clock's time; the usage becomes what the update
    resolved with when there is no error, and is left as it was when the
    update fails or is rejected. *)
Theorem markFreeInterviewUsed_outcome (getSupabaseUserId : option jsstring)
  (closed_over : option InterviewUsage) (w : W) (s : state) :
  let r := Async.run backend env
             (markFreeInterviewUsed getSupabaseUserId closed_over) w s in
  Async.completion r = Ok tt
  /\ match usable getSupabaseUserId, closed_over with
     | Some supabaseUserId, Some u =>
         let now := fst (env _ NowISO w) in
         let update :=
           UpdateUsage supabaseUserId true (add_number (usage_count u) 1) now in
         Async.asked r = [Called _ NowISO; Asked _ update]
         /\ Async.written r
            = match fst (backend _ update (snd (env _ NowISO w))) with
              | Async.Fulfilled {| Async.data := d; Async.error := None |} =>
                  {| usage := d; loading := loading s |}
              | _ => s
              end
     | _, _ => Async.asked r = [] /\ Async.written r = s /\ Async.world r = w
     end.
Proof.
  cbv zeta. unfold markFreeInterviewUsed.
  destruct (usable getSupabaseUserId) as [supabaseUserId|];
    [destruct closed_over as [u|]|]; try (cbn; auto; fail).
  usage_cases; auto.
Qed.

(** X25. After a mark that the backend carries out (the update resolves with
    the row as it was asked to write it), the free interview can no longer
    be used, and for a count below 2^53, where adding one is exact, the
    count seen by the component is one more than before. *)
Theorem free_interview_is_spent (supabaseUserId : jsstring) (u : InterviewUsage)
  (w : W) (s : state)
  (Hid : truthy supabaseUserId = true)
  (Hcount : 0 <= usage_count u < 2 ^ 53)
  (Hecho : forall used count date w1,
      exists row w2,
        backend _ (UpdateUsage supabaseUserId used count date) w1
        = (Async.Fulfilled {| Async.data := Some row; Async.error := None |}, w2)
        /\ free_interview_used row = used /\ usage_count row = count) :
  let r := Async.run backend env
             (markFreeInterviewUsed (Some supabaseUserId) (Some u)) w s in
  canUseFreeInterview (usage (Async.written r)) = Some false
  /\ exists row, usage (Async.written r) = Some row
                 /\ usage_count row = usage_count u + 1.
Proof.
  cbv zeta. unfold markFreeInterviewUsed, usable. rewrite Hid.
  unfold setUsage, modify, await, call.
  cbn [Async.bind Async.try_catch Async.run].
  destruct (env _ NowISO w) as [now w1].
  destruct (Hecho true (add_number (usage_count u) 1) now w1)
    as (row & w2 & -> & Hused & Hsent).
  cbn [Async.bind Async.try_catch Async.run Async.data Async.error
       Async.written fst snd usage canUseFreeInterview].
  rewrite Hused. split; [reflexivity|]. exists row. split; [reflexivity|].
  rewrite Hsent. apply add_number_exact.
  change (2 ^ 53) with 9007199254740992 in *. lia.
Qed.

(** X26. A first visit: when the profile lookup finds the profile, the usage
    select reports that there is no row (PGRST116) and the insert is carried
    out, [fetchUsage] ends with a usage record that has count 0, [loading]
    false, and the free interview available. *)
Theorem first_visit_gets_free_interview (supabaseUserId : jsstring)
  (w : W) (s : state)
  (Hid : truthy supabaseUserId = true)
  (Hprofile : forall w0, exists pid e w1,
      backend _ (SelectProfileId supabaseUserId) w0
      = (Async.Fulfilled {| Async.data := Some pid; Async.error := e |}, w1))
  (Hnone : forall w0, exists w1,
      backend _ (SelectUsage supabaseUserId) w0
      = (Async.Fulfilled {| Async.data := None;
                            Async.error := Some (PgError (str "PGRST116")) |}, w1))
  (Hinsert : forall used count w0, exists row w1,
      backend _ (InsertUsage supabaseUserId used count) w0
      = (Async.Fulfilled {| Async.data := Some row; Async.error := None |}, w1)
      /\ free_interview_used row = used /\ usage_count row = count) :
  let r := Async.run backend env (fetchUsage true (Some supabaseUserId)) w s in
  loading (Async.written r) = false
  /\ canUseFreeInterview (usage (Async.written r)) = Some true
  /\ exists row, usage (Async.written r) = Some row /\ usage_count row = 0.
Proof.
  cbv zeta. unfold fetchUsage, usable. rewrite Hid.
  unfold ensureProfileExists, setUsage, setLoading, modify, await, call.
  cbn [Async.bind Async.try_catch Async.try_finally Async.run].
  destruct (Hprofile w) as (pid & e & w1 & ->).
  cbn [Async.bind Async.try_catch Async.try_finally Async.run Async.data negb].
  destruct (Hnone w1) as (w2 & ->).
  cbn [Async.bind Async.try_catch Async.try_finally Async.run Async.data
       Async.error error_code].
  rewrite jsstring_eqb_refl.
  cbn [Async.bind Async.try_catch Async.try_finally Async.run].
  destruct (Hinsert false 0 w2) as (row & w3 & -> & Hused & Hcount).
  cbn [Async.bind Async.try_catch Async.try_finally Async.run Async.data
       Async.error Async.written fst snd usage loading canUseFreeInterview].
  rewrite Hused. split; [reflexivity|]. split; [reflexivity|]. exists row. auto.
Qed.

End InterviewUsage.


(** X25, witness: the backend that stores what it is asked to store. *)
Lemma free_interview_is_spent_fresh_user :
  InterviewUsageHook.canUseFreeInterview
    (InterviewUsageHook.usage
       (Async.written
          (Async.run fresh_user clock
             (InterviewUsageHook.markFreeInterviewUsed (Some (mapped alice))
                (Some (usage_row (mapped alice) false 0 None))) tt idle)))
  = Some false.
Proof.
  refine (proj1 (free_interview_is_spent unit fresh_user clock (mapped alice)
                   (usage_row (mapped alice) false 0 None) tt idle
                   (mapped_nonempty alice) _ _)).
  { cbn. lia. }
  intros used count date [].
  exists (usage_row (mapped alice) used count (Some date)), tt.
  repeat split.
Defined.

(** X26, witness. *)
Lemma first_visit_fresh_user :
  InterviewUsageHook.canUseFreeInterview
    (InterviewUsageHook.usage
       (Async.written
          (Async.run fresh_user clock
             (InterviewUsageHook.fetchUsage true (Some (mapped alice))) tt idle)))
  = Some true.
Proof.
  refine (proj1 (proj2 (first_visit_gets_free_interview unit fresh_user clock
                          (mapped alice) tt idle (mapped_nonempty alice) _ _ _))).
  - intros []. exists (mapped alice), None, tt. reflexivity.
  - intros []. exists tt. reflexivity.
  - intros used count []. exists (usage_row (mapped alice) used count None), tt.
    repeat split.
Defined.
